(** * base-client-js: the identity manager and the vault manager

    A shallow embedding of [src/manager/ProfileManager.ts] and
    [src/manager/AccountManager.ts].

    The two classes are glue between collaborators that live outside of
    them (the repositories, the key pair helper, [CryptoUtils],
    [JsonUtils], [JSON.parse]).  Collaborators are interfaces in the
    source and type classes here; the classes themselves are embedded
    statement by statement on an explicit world state.

    Conventions of the embedding:
    - a JavaScript string is a [string], compared by its characters;
      the built-in [toLowerCase] is a parameter of the development;
    - a JavaScript [Map<string, string>] is an association list in
      insertion order, which is the order [forEach] visits;
    - a thrown value is an [error]; synchronous code is a [Sync]
      computation, a promise-returning call an [Async] one whose outcome
      is the state the returned promise reaches: fulfilled, rejected, or
      pending for ever;
    - every call runs to completion on the world it is given: other
      callers are not interleaved between the reactions of a promise
      chain. *)

From Stdlib Require Import String Ascii List Bool Arith Lia.
Import ListNotations.
Open Scope string_scope.

(** ** Outcomes of JavaScript code *)

Definition error := string.

Inductive result (A : Type) : Type :=
| Ok (a : A)
| Throw (e : error).

Arguments Ok {A} a.
Arguments Throw {A} e.

Inductive Promise (A : Type) : Type :=
| Resolved (a : A)
| Rejected (e : error)
| Pending.

Arguments Resolved {A} a.
Arguments Rejected {A} e.
Arguments Pending {A}.

Definition Sync (W A : Type) : Type := W -> result A * W.
Definition Async (W A : Type) : Type := W -> Promise A * W.

Definition ret {W A} (a : A) : Sync W A := fun w => (Ok a, w).

Definition bind {W A B} (c : Sync W A) (k : A -> Sync W B) : Sync W B :=
  fun w =>
    match c w with
    | (Ok a, w') => k a w'
    | (Throw e, w') => (Throw e, w')
    end.

Notation "x <- c ;; k" := (bind c (fun x => k))
  (at level 61, c at next level, right associativity).

(** [p.then(f)]: [f] reacts to the fulfilment of [p]; a rejection of [p]
    is the rejection of the derived promise. *)
Definition then_ {W A B} (p : Async W A) (f : A -> Async W B) : Async W B :=
  fun w =>
    match p w with
    | (Resolved a, w') => f a w'
    | (Rejected e, w') => (Rejected e, w')
    | (Pending, w') => (Pending, w')
    end.

(** [new Promise(resolve => { body; resolve(v) })] with a synchronous
    body: the promise is fulfilled with [v], and an exception thrown by
    the body rejects it. *)
Definition new_Promise {W A} (body : Sync W A) : Async W A :=
  fun w =>
    match body w with
    | (Ok a, w') => (Resolved a, w')
    | (Throw e, w') => (Rejected e, w')
    end.

(** [new Promise(resolve => { a = pre; p(a).then(x => { cb; resolve(v) }) })]:
    the executor takes [resolve] only.  An exception of [pre] is thrown
    inside the executor and rejects the promise.  [resolve] is called by
    the reaction alone, so when [p] is rejected (or the reaction throws)
    nothing ever settles the promise. *)
Definition new_Promise_then {W A B C} (pre : Sync W A) (p : A -> Async W B)
    (cb : A -> B -> Sync W C) : Async W C :=
  fun w =>
    match pre w with
    | (Throw e, w') => (Rejected e, w')
    | (Ok a, w') =>
        match p a w' with
        | (Resolved b, w'') =>
            match cb a b w'' with
            | (Ok c, w3) => (Resolved c, w3)
            | (Throw _, w3) => (Pending, w3)
            end
        | (Rejected _, w'') => (Pending, w'')
        | (Pending, w'') => (Pending, w'')
        end
    end.

(** ** Strings *)

(** The built-in [String.prototype.toLowerCase].  It follows the case
    mappings of Unicode, which are no part of the sources: the
    development holds for every function from strings to strings, and
    asks of it only what a theorem states as a hypothesis. *)
Class JsString : Type := {
  toLowerCase : string -> string
}.

(** ** [Map<string, string>] *)

Definition Map : Type := list (string * string).

Definition keys (m : Map) : list string := List.map fst m.

Fixpoint Map_get (m : Map) (key : string) : option string :=
  match m with
  | [] => None
  | (k, v) :: m' => if String.eqb k key then Some v else Map_get m' key
  end.

Definition Map_has (m : Map) (key : string) : bool :=
  match Map_get m key with Some _ => true | None => false end.

(** [m.set(key, value)]: an existing key keeps its place and takes the
    new value, a new key goes last. *)
Fixpoint Map_set (m : Map) (key value : string) : Map :=
  match m with
  | [] => [(key, value)]
  | (k, v) :: m' =>
      if String.eqb k key then (k, value) :: m'
      else (k, v) :: Map_set m' key value
  end.

(** [data.forEach((value, key) => body)] where [body] updates a local
    [acc] captured by the closure; an exception leaves the loop. *)
Fixpoint forEach {W S} (data : Map) (body : string -> string -> S -> Sync W S)
    (acc : S) : Sync W S :=
  match data with
  | [] => ret acc
  | (key, value) :: rest =>
      acc' <- body value key acc ;;
      forEach rest body acc'
  end.

(** ** [repository/models/Account] *)

(** Modelled from the spec: the class [Account] is not among the
    sources.  Its fields are the three the managers read and write; the
    data model has the message and the signature empty until an identity
    event supplies them. *)
Record Account : Type := mkAccount {
  publicKey : string;
  message : string;
  sig : string
}.

(** Modelled from the spec: [new Account(publicKey)], whose constructor
    is not among the sources; [new Account()] is the one with the empty
    key. *)
Definition new_Account (publicKey : string) : Account :=
  mkAccount publicKey "" "".

(** ** Collaborators

    None of them is part of the two classes: each is an interface of the
    source, given here by the methods the classes call.  A collaborator
    whose calls change its state takes the state and returns the next
    one; the key pair objects of the vault manager are only read. *)

(** [repository/client/ClientDataRepository]: the remote vault store.
    Both methods answer with a promise, as the interface declares; what
    is stated below of a store is stated of the outcome of its promise. *)
Module ClientDataRepository.
Class t (S : Type) : Type := {
  getData : string -> S -> Promise Map * S;
  updateData : string -> Map -> S -> Promise Map * S
}.
End ClientDataRepository.

(** [utils/keypair/MessageEncrypt]: the per-field password derivation of
    the key pair the object holds. *)
Module MessageEncrypt.
Class t (E : Type) : Type := {
  generatePasswordForFiled : E -> string -> result string
}.
End MessageEncrypt.

(** [utils/keypair/MessageDecrypt]: opens an envelope addressed to the
    key pair the object holds. *)
Module MessageDecrypt.
Class t (D : Type) : Type := {
  decryptMessage : D -> string -> string -> result string
}.
End MessageDecrypt.

(** [utils/CryptoUtils]: the symmetric cipher.  Encryption draws a fresh
    initialisation vector on every call; the draw is the last argument. *)
Module CryptoUtils.
Class t : Type := {
  encryptAes256 : string -> string -> nat -> result string;
  decryptAes256 : string -> string -> result string
}.
End CryptoUtils.

(** The built-in [JSON.parse], to a type [J] of parsed values. *)
Module JSON.
Class t (J : Type) : Type := {
  parse : string -> result J
}.
End JSON.

(** [utils/JsonUtils]. *)
Module JsonUtils.
Class t (J : Type) : Type := {
  jsonToMap : J -> result Map
}.
End JsonUtils.

(** [utils/keypair/KeyPair]. *)
Record KeyPair : Type := mkKeyPair {
  privateKey : string;
  kp_publicKey : string
}.

(** [repository/account/AccountRepository]: the remote account
    authority. *)
Module AccountRepository.
Class t (R : Type) : Type := {
  registration : Account -> R -> Promise Account * R;
  checkAccount : Account -> R -> Promise Account * R;
  unsubscribe : Account -> R -> Promise Account * R
}.
End AccountRepository.

(** [utils/keypair/KeyPairHelper] and [utils/keypair/MessageSigner], on
    the state [K] of the objects behind them.  The two references of the
    identity manager may be one object: the pair made by [createKeyPair]
    is then the one [signMessage] signs with. *)
Module KeyPairHelper.
Class t (K : Type) : Type := {
  createKeyPair : string -> K -> Promise KeyPair * K;
  generateMnemonicPhrase : K -> Promise string * K
}.
End KeyPairHelper.

Module MessageSigner.
Class t (K : Type) : Type := {
  signMessage : string -> K -> Promise string * K
}.
End MessageSigner.

(** [BehaviorSubject<Account>] of rxjs: the value last published, and
    the values delivered to the observers so far, oldest first.  The
    observers (the vault manager's [onChangeAccount] is one) do not
    throw. *)
Module BehaviorSubject.
Record t : Type := mk {
  getValue : Account;
  emitted : list Account
}.

Definition next (a : Account) (s : t) : t :=
  {| getValue := a; emitted := emitted s ++ [a] |}.
End BehaviorSubject.

(** ** [manager/ProfileManager.ts] *)

Module ProfileManager.

(** What the vault manager sends to the vault store. *)
Inductive Request : Type :=
| GetData (anyPublicKey : string)
| UpdateData (anyPublicKey : string) (data : Map).

Section Manager.
Context {S E D J : Type}.
Context {js : JsString}.
Context {store : ClientDataRepository.t S}.
Context {kdf : MessageEncrypt.t E} {envelope : MessageDecrypt.t D}.
Context {aes : CryptoUtils.t}.
Context {json : JSON.t J} {jsonUtils : JsonUtils.t J}.

(** The four private fields of the class, and what its methods
    touch outside of it: the source of initialisation vectors
    ([drawn] counts the draws), the console, and the requests sent
    to the vault store, oldest first. *)
Record World : Type := mkWorld {
  clientDataRepository : S;
  account : Account;
  encrypt : E;
  decrypt : D;
  drawn : nat;
  console : list (list string);
  requests : list Request
}.

Definition sent (s : S) (r : Request) (w : World) : World :=
  {| clientDataRepository := s; account := account w;
     encrypt := encrypt w; decrypt := decrypt w; drawn := drawn w;
     console := console w; requests := requests w ++ [r] |}.

Definition draw (w : World) : World :=
  {| clientDataRepository := clientDataRepository w; account := account w;
     encrypt := encrypt w; decrypt := decrypt w; drawn := Datatypes.S (drawn w);
     console := console w; requests := requests w |}.

Definition console_log (line : list string) : Sync World unit :=
  fun w =>
    (Ok tt,
     {| clientDataRepository := clientDataRepository w; account := account w;
        encrypt := encrypt w; decrypt := decrypt w; drawn := drawn w;
        console := console w ++ [line]; requests := requests w |}).

(** The calls to the collaborators, on the world. *)
Definition generatePasswordForFiled (fieldName : string) : Sync World string :=
  fun w => (MessageEncrypt.generatePasswordForFiled (encrypt w) fieldName, w).

Definition decryptMessage (senderPk encrypted : string) : Sync World string :=
  fun w => (MessageDecrypt.decryptMessage (decrypt w) senderPk encrypted, w).

Definition encryptAes256 (value pass : string) : Sync World string :=
  fun w => (CryptoUtils.encryptAes256 value pass (drawn w), draw w).

Definition decryptAes256 (value pass : string) : Sync World string :=
  fun w => (CryptoUtils.decryptAes256 value pass, w).

Definition JSON_parse (text : string) : Sync World J :=
  fun w => (JSON.parse text, w).

Definition jsonToMap (j : J) : Sync World Map :=
  fun w => (JsonUtils.jsonToMap j, w).

(** [try { body } catch { handler }] *)
Definition try_catch {A} (body handler : Sync World A) : Sync World A :=
  fun w =>
    match body w with
    | (Ok a, w') => (Ok a, w')
    | (Throw _, w') => handler w'
    end.

Definition onChangeAccount (a : Account) (w : World) : World :=
  {| clientDataRepository := clientDataRepository w; account := a;
     encrypt := encrypt w; decrypt := decrypt w; drawn := drawn w;
     console := console w; requests := requests w |}.

Definition prepareData (data : Map) (encrypting : bool) : Async World Map :=
  new_Promise
    (forEach data
       (fun value key result =>
          pass <- generatePasswordForFiled key ;;
          changedValue <- (if encrypting
                           then encryptAes256 value pass
                           else decryptAes256 value pass) ;;
          ret (Map_set result (toLowerCase key) changedValue))
       []).

Definition getRawData (anyPublicKey : string) : Async World Map :=
  fun w =>
    let (p, s) := ClientDataRepository.getData anyPublicKey
                    (clientDataRepository w) in
    (p, sent s (GetData anyPublicKey) w).

Definition getData : Async World Map :=
  fun w =>
    then_ (getRawData (publicKey (account w)))
          (fun data => prepareData data false) w.

Definition getAuthorizedData (recipientPk encryptedData : string)
  : Async World Map :=
  new_Promise_then
    (strDecrypt <- decryptMessage recipientPk encryptedData ;;
     jsonDecrypt <- JSON_parse strDecrypt ;;
     jsonToMap jsonDecrypt)
    (fun _ => getRawData recipientPk)
    (fun arrayResponse recipientData =>
       forEach arrayResponse
         (fun value key result =>
            (* [recipientData.has(key)], and [recipientData.get(key)]
               under it *)
            match Map_get recipientData key with
            | Some data =>
                try_catch
                  (clear <- decryptAes256 data value ;;
                   ret (Map_set result key clear))
                  (_ <- console_log ["decryption error: "; key; data] ;;
                   ret result)
            | None => ret result
            end)
         []).

Definition updateData (data : Map) : Async World Map :=
  then_ (prepareData data true)
        (fun encrypted w =>
           let (p, s) := ClientDataRepository.updateData
                           (publicKey (account w)) encrypted
                           (clientDataRepository w) in
           (p, sent s (UpdateData (publicKey (account w)) encrypted) w)).

End Manager.

Arguments World : clear implicits.

End ProfileManager.

(** ** [manager/AccountManager.ts] *)

Module AccountManager.

Section Manager.
Context {R K : Type}.
Context {authority : AccountRepository.t R}.
Context {helper : KeyPairHelper.t K} {signer : MessageSigner.t K}.

(** The fields of the class: the account authority, the object (or
    objects) behind [keyPairCreator] and [messageSigner], and the
    subject the current identity is published on. *)
Record World : Type := mkWorld {
  accountRepository : R;
  keyPairCreator : K;
  authAccountBehavior : BehaviorSubject.t
}.

Definition createKeyPair (mnemonicPhrase : string) : Async World KeyPair :=
  fun w =>
    let (p, k) := KeyPairHelper.createKeyPair mnemonicPhrase (keyPairCreator w) in
    (p, {| accountRepository := accountRepository w; keyPairCreator := k;
           authAccountBehavior := authAccountBehavior w |}).

Definition generateMnemonicPhrase : Async World string :=
  fun w =>
    let (p, k) := KeyPairHelper.generateMnemonicPhrase (keyPairCreator w) in
    (p, {| accountRepository := accountRepository w; keyPairCreator := k;
           authAccountBehavior := authAccountBehavior w |}).

Definition signMessage (msg : string) : Async World string :=
  fun w =>
    let (p, k) := MessageSigner.signMessage msg (keyPairCreator w) in
    (p, {| accountRepository := accountRepository w; keyPairCreator := k;
           authAccountBehavior := authAccountBehavior w |}).

(** A call to one of the three methods of the account authority. *)
Definition ask (method : Account -> R -> Promise Account * R) (a : Account)
  : Async World Account :=
  fun w =>
    let (p, r) := method a (accountRepository w) in
    (p, {| accountRepository := r; keyPairCreator := keyPairCreator w;
           authAccountBehavior := authAccountBehavior w |}).

Definition authAccountBehavior_next (a : Account) : Sync World unit :=
  fun w =>
    (Ok tt,
     {| accountRepository := accountRepository w;
        keyPairCreator := keyPairCreator w;
        authAccountBehavior := BehaviorSubject.next a (authAccountBehavior w) |}).

Definition generateAccount (keyPair : KeyPair) : Async World Account :=
  new_Promise (ret (new_Account (kp_publicKey keyPair))).

Definition onGetAccount (acc : Account) (msg : string) : Async World Account :=
  then_ (signMessage msg)
        (fun sg =>
           new_Promise
             (let acc' := {| publicKey := publicKey acc; message := msg; sig := sg |} in
              _ <- authAccountBehavior_next acc' ;;
              ret acc')).

Definition getAccount (acc : Account) (msg : string) : Async World Account :=
  then_ (ask AccountRepository.checkAccount acc)
        (fun acc' => onGetAccount acc' msg).

Definition registration (mnemonicPhrase msg : string) : Async World Account :=
  then_ (then_ (then_ (createKeyPair mnemonicPhrase) generateAccount)
               (ask AccountRepository.registration))
        (fun acc => onGetAccount acc msg).

Definition checkAccount (mnemonicPhrase msg : string) : Async World Account :=
  then_ (then_ (createKeyPair mnemonicPhrase) generateAccount)
        (fun acc => getAccount acc msg).

Definition unsubscribe (mnemonicPhrase : string) : Async World Account :=
  then_ (then_ (createKeyPair mnemonicPhrase) generateAccount)
        (ask AccountRepository.unsubscribe).

Definition getNewMnemonic : Async World string := generateMnemonicPhrase.

End Manager.

Arguments World : clear implicits.

End AccountManager.

(** ** Test doubles

    In-memory stand-ins for the collaborators, in the manner of the
    [ClientDataRepositoryImplMock] of the test suite.  The theorems below
    hold for every collaborator; the doubles only serve to run the two
    classes on concrete inputs. *)

Module Mock.

(** [toLowerCase] on ASCII names, where it folds the letters [A] to [Z]
    and keeps every other character.  The names of the runs below are
    ASCII. *)
Definition lower_ascii (c : ascii) : ascii :=
  let n := nat_of_ascii c in
  if Nat.leb 65 n && Nat.leb n 90 then ascii_of_nat (n + 32) else c.

Fixpoint fold_ascii (s : string) : string :=
  match s with
  | EmptyString => EmptyString
  | String c s' => String (lower_ascii c) (fold_ascii s')
  end.

#[export] Instance ascii_names : JsString := {|
  toLowerCase := fold_ascii
|}.

Fixpoint strip_prefix (prefix s : string) : option string :=
  match prefix, s with
  | EmptyString, _ => Some s
  | String a prefix', String b s' =>
      if Ascii.eqb a b then strip_prefix prefix' s' else None
  | String _ _, EmptyString => None
  end.

(** [split_at c s]: the text before and after the first [c] of [s]. *)
Fixpoint split_at (c : ascii) (s : string) : option (string * string) :=
  match s with
  | EmptyString => None
  | String a s' =>
      if Ascii.eqb a c then Some (EmptyString, s')
      else match split_at c s' with
           | Some (l, r) => Some (String a l, r)
           | None => None
           end
  end.

(** A vault store in memory; [online = false] is an unreachable one. *)
Record Store : Type := mkStore {
  online : bool;
  vaults : list (string * Map)
}.

Fixpoint vault_of (pk : string) (vs : list (string * Map)) : Map :=
  match vs with
  | [] => []
  | (k, m) :: vs' => if String.eqb k pk then m else vault_of pk vs'
  end.

#[export] Instance store : ClientDataRepository.t Store := {|
  ClientDataRepository.getData pk s :=
    if online s then (Resolved (vault_of pk (vaults s)), s)
    else (Rejected "StoreError", s);
  ClientDataRepository.updateData pk m s :=
    if online s then (Resolved m, mkStore true ((pk, m) :: vaults s))
    else (Rejected "StoreError", s)
|}.

(** A key pair with a password derivation that folds the case of the
    field name ([folding = true]) or keeps it, and that refuses the
    empty name.  An envelope for the pair is its secret, [>], and the
    clear text. *)
Record Keys : Type := mkKeys {
  secret : string;
  folding : bool
}.

#[export] Instance kdf : MessageEncrypt.t Keys := {|
  MessageEncrypt.generatePasswordForFiled k fieldName :=
    if String.eqb fieldName "" then Throw "DerivationError"
    else Ok (secret k ++ "/" ++
             (if folding k then toLowerCase fieldName else fieldName))
|}.

#[export] Instance envelope : MessageDecrypt.t Keys := {|
  MessageDecrypt.decryptMessage k _ encrypted :=
    match strip_prefix (secret k ++ ">") encrypted with
    | Some clear => Ok clear
    | None => Throw "DecryptionError"
    end
|}.

(** A cipher text is a digit of the draw, the password, [|], and the
    clear text. *)
#[export] Instance aes : CryptoUtils.t := {|
  CryptoUtils.encryptAes256 value pass iv :=
    Ok (String (ascii_of_nat (48 + iv mod 10)) (pass ++ "|" ++ value));
  CryptoUtils.decryptAes256 value pass :=
    match value with
    | String _ body =>
        match strip_prefix (pass ++ "|") body with
        | Some clear => Ok clear
        | None => Throw "DecryptionError"
        end
    | EmptyString => Throw "DecryptionError"
    end
|}.

(** Objects are written [name:value;name:value;]. *)
Fixpoint parse_entries (fuel : nat) (text : string) : result Map :=
  match fuel with
  | 0 => Throw "SyntaxError"
  | Datatypes.S fuel' =>
      if String.eqb text "" then Ok []
      else match split_at ":" text with
           | None => Throw "SyntaxError"
           | Some (name, rest) =>
               match split_at ";" rest with
               | None => Throw "SyntaxError"
               | Some (value, rest') =>
                   match parse_entries fuel' rest' with
                   | Ok m => Ok ((name, value) :: m)
                   | Throw e => Throw e
                   end
               end
           end
  end.

#[export] Instance json : JSON.t Map := {|
  JSON.parse text := parse_entries (Datatypes.S (String.length text)) text
|}.

#[export] Instance jsonUtils : JsonUtils.t Map := {|
  JsonUtils.jsonToMap j :=
    Ok (fold_left (fun m kv => Map_set m (fst kv) (snd kv)) j [])
|}.

(** An account authority that keeps the registered public keys. *)
Definition registered (pk : string) (r : list string) : bool :=
  existsb (String.eqb pk) r.

#[export] Instance authority : AccountRepository.t (list string) := {|
  AccountRepository.registration a r :=
    if registered (publicKey a) r then (Rejected "RegistrationError", r)
    else (Resolved (new_Account (publicKey a)), publicKey a :: r);
  AccountRepository.checkAccount a r :=
    if registered (publicKey a) r then (Resolved (new_Account (publicKey a)), r)
    else (Rejected "NotFoundError", r);
  AccountRepository.unsubscribe a r :=
    if registered (publicKey a) r
    then (Resolved (new_Account (publicKey a)),
          filter (fun pk => negb (String.eqb pk (publicKey a))) r)
    else (Rejected "NotFoundError", r)
|}.

(** A wallet that remembers the phrase of the pair it made last. *)
#[export] Instance helper : KeyPairHelper.t (option string) := {|
  KeyPairHelper.createKeyPair phrase k :=
    if String.eqb phrase "" then (Rejected "DerivationError", k)
    else (Resolved (mkKeyPair ("prv:" ++ phrase) ("pub:" ++ phrase)),
          Some phrase);
  KeyPairHelper.generateMnemonicPhrase k := (Resolved "abandon ability", k)
|}.

#[export] Instance signer : MessageSigner.t (option string) := {|
  MessageSigner.signMessage msg k :=
    match k with
    | Some phrase => (Resolved ("sig:" ++ phrase ++ ":" ++ msg), k)
    | None => (Rejected "no key pair", k)
    end
|}.

(** Alisa's vault manager, with an empty store. *)
Definition alisa (folding online : bool) (vaults : list (string * Map))
  : ProfileManager.World Store Keys Keys :=
  ProfileManager.mkWorld (mkStore online vaults) (new_Account "pub:alisa")
    (mkKeys "alisa" folding) (mkKeys "alisa" folding) 0 [] [].

(** An identity manager before any identity was published. *)
Definition fresh (known : list string)
  : AccountManager.World (list string) (option string) :=
  AccountManager.mkWorld known None (BehaviorSubject.mk (new_Account "") []).

(** Bob's vault as the store holds it, and an envelope for Alisa with
    the password of [name] and a stale password for [email]. *)
Definition bobs_vault : Map :=
  [("name", "0bob/name|Bob"); ("email", "0bob/email|b@x.com");
   ("phone", "0bob/phone|555")].

Definition reader : ProfileManager.World Store Keys Keys :=
  alisa true true [("pub:bob", bobs_vault)].

Definition bobs_passwords : Map := [("name", "bob/name"); ("email", "stale")].

(** Alisa's own vault with a field that does not decrypt. *)
Definition damaged : ProfileManager.World Store Keys Keys :=
  alisa true true
    [("pub:alisa", [("name", "0alisa/name|x"); ("email", "garbage")])].

(** The owner of the end-to-end scenario registers. *)
Definition owner : Account :=
  {| publicKey := "pub:owner secret"; message := "hello";
     sig := "sig:owner secret:hello" |}.

(** Alisa's own vault as a store may hold it, with two names that agree
    after lowercasing. *)
Definition clashing : ProfileManager.World Store Keys Keys :=
  alisa true true
    [("pub:alisa", [("name", "0alisa/name|old"); ("Name", "0alisa/name|new")])].

(** A key pair helper and a message signer that are two objects: the
    pair the helper makes does not reach the signer. *)
Record SplitKeys : Type := mkSplitKeys {
  made : option string;
  signing : option string
}.

#[export] Instance split_helper : KeyPairHelper.t SplitKeys := {|
  KeyPairHelper.createKeyPair phrase k :=
    if String.eqb phrase "" then (Rejected "DerivationError", k)
    else (Resolved (mkKeyPair ("prv:" ++ phrase) ("pub:" ++ phrase)),
          mkSplitKeys (Some phrase) (signing k));
  KeyPairHelper.generateMnemonicPhrase k := (Resolved "abandon ability", k)
|}.

#[export] Instance split_signer : MessageSigner.t SplitKeys := {|
  MessageSigner.signMessage msg k :=
    match signing k with
    | Some phrase => (Resolved ("sig:" ++ phrase ++ ":" ++ msg), k)
    | None => (Rejected "no key pair", k)
    end
|}.

(** An identity manager whose signer holds no key pair. *)
Definition unsigned (known : list string)
  : AccountManager.World (list string) SplitKeys :=
  AccountManager.mkWorld known (mkSplitKeys None None)
    (BehaviorSubject.mk (new_Account "") []).

End Mock.

(** ** The properties, as predicates on the collaborators *)

Section Properties.
Context {S E D J : Type}.
Context {js : JsString}.
Context {store : ClientDataRepository.t S}.
Context {kdf : MessageEncrypt.t E} {envelope : MessageDecrypt.t D}.
Context {aes : CryptoUtils.t}.
Context {json : JSON.t J} {jsonUtils : JsonUtils.t J}.

Local Abbreviation World := (ProfileManager.World S E D).

(** The cipher encrypts every value, and decrypting the cipher text
    under the same password gives the value back. *)
Definition round_trip : Prop :=
  forall value pass iv,
    exists c, CryptoUtils.encryptAes256 value pass iv = Ok c /\
              CryptoUtils.decryptAes256 c pass = Ok value.

(** The store in state [s] accepts a vault for [pk], echoes it, and
    serves it back. *)
Definition echoes (s : S) (pk : string) : Prop :=
  forall m,
    exists s' s'',
      ClientDataRepository.updateData pk m s = (Resolved m, s') /\
      ClientDataRepository.getData pk s' = (Resolved m, s'').

(** The derivation gives a password for [fieldName], the same under
    the lowercased name. *)
Definition folds_case (e : E) (fieldName : string) : Prop :=
  exists pass,
    MessageEncrypt.generatePasswordForFiled e fieldName = Ok pass /\
    MessageEncrypt.generatePasswordForFiled e (toLowerCase fieldName) = Ok pass.

(** Lowercasing the lowercased [fieldName] changes nothing. *)
Definition settled (fieldName : string) : Prop :=
  toLowerCase (toLowerCase fieldName) = toLowerCase fieldName.

(** A vault with its field names lowercased. *)
Definition lowercased (m : Map) : Map :=
  List.map (fun kv => (toLowerCase (fst kv), snd kv)) m.

(** The closure of the loop of [prepareData]. *)
Definition prepare_each (encrypting : bool) (value key : string) (result : Map)
  : Sync World Map :=
  pass <- ProfileManager.generatePasswordForFiled key ;;
  changedValue <- (if encrypting
                   then ProfileManager.encryptAes256 value pass
                   else ProfileManager.decryptAes256 value pass) ;;
  ret (Map_set result (toLowerCase key) changedValue).

(** Everything of the world but the count of draws. *)
Definition same_but_draws (w w' : World) : Prop :=
  ProfileManager.clientDataRepository w' = ProfileManager.clientDataRepository w /\
  ProfileManager.account w' = ProfileManager.account w /\
  ProfileManager.encrypt w' = ProfileManager.encrypt w /\
  ProfileManager.decrypt w' = ProfileManager.decrypt w /\
  ProfileManager.console w' = ProfileManager.console w /\
  ProfileManager.requests w' = ProfileManager.requests w.

(** The field [(key, value)] of a cipher-text vault is readable: its
    password derives and opens it. *)
Definition readable (e : E) (kv : string * string) : Prop :=
  exists pass clear,
    MessageEncrypt.generatePasswordForFiled e (fst kv) = Ok pass /\
    CryptoUtils.decryptAes256 (snd kv) pass = Ok clear.

(** [kc] is the stored form of the clear field [kv]: the lowercased
    name, and a cipher text the password of [kv]'s name opens. *)
Definition sealed (e : E) (kv kc : string * string) : Prop :=
  fst kc = toLowerCase (fst kv) /\
  exists pass,
    MessageEncrypt.generatePasswordForFiled e (fst kv) = Ok pass /\
    CryptoUtils.decryptAes256 (snd kc) pass = Ok (snd kv).

(** The field [(key, value)] of a clear vault cannot be written:
    its password does not derive, or the cipher refuses the value
    whatever the draw. *)
Definition unwritable (e : E) (kv : string * string) : Prop :=
  (exists err, MessageEncrypt.generatePasswordForFiled e (fst kv) = Throw err) \/
  (exists pass,
      MessageEncrypt.generatePasswordForFiled e (fst kv) = Ok pass /\
      forall iv, exists err,
          CryptoUtils.encryptAes256 (snd kv) pass iv = Throw err).

(** The envelope opens, for the key pair [d], to the password map
    [passwords]. *)
Definition discloses (d : D) (senderPk encryptedData : string) (passwords : Map)
  : Prop :=
  exists strDecrypt jsonDecrypt,
    MessageDecrypt.decryptMessage d senderPk encryptedData = Ok strDecrypt /\
    JSON.parse strDecrypt = Ok jsonDecrypt /\
    JsonUtils.jsonToMap jsonDecrypt = Ok passwords.

(** The closure of the loop of [getAuthorizedData]. *)
Definition disclose_each (recipientData : Map) (value key : string) (result : Map)
  : Sync World Map :=
  match Map_get recipientData key with
  | Some data =>
      ProfileManager.try_catch
        (clear <- ProfileManager.decryptAes256 data value ;;
         ret (Map_set result key clear))
        (_ <- ProfileManager.console_log ["decryption error: "; key; data] ;;
         ret result)
  | None => ret result
  end.

(** What a reader holding [passwords] gets of the field [key] of the
    stored vault [raw]. *)
Definition disclosed (raw passwords : Map) (key : string) : option string :=
  match Map_get passwords key, Map_get raw key with
  | Some pass, Some data =>
      match CryptoUtils.decryptAes256 data pass with
      | Ok clear => Some clear
      | Throw _ => None
      end
  | _, _ => None
  end.

(** The result of the loop of [getAuthorizedData], from [result]. *)
Definition disclose_all (raw passwords result : Map) : Map :=
  fold_left
    (fun result kv =>
       match Map_get raw (fst kv) with
       | Some data =>
           match CryptoUtils.decryptAes256 data (snd kv) with
           | Ok clear => Map_set result (fst kv) clear
           | Throw _ => result
           end
       | None => result
       end)
    passwords result.

(** The lines the loop of [getAuthorizedData] writes on the console. *)
Definition complaints (raw passwords : Map) : list (list string) :=
  flat_map
    (fun kv =>
       match Map_get raw (fst kv) with
       | Some data =>
           match CryptoUtils.decryptAes256 data (snd kv) with
           | Ok _ => []
           | Throw _ => [["decryption error: "; fst kv; data]]
           end
       | None => []
       end)
    passwords.

(** The fields a reader holding [passwords] gets of the stored vault
    [raw], in the order of [passwords]. *)
Definition disclosed_fields (raw passwords : Map) : Map :=
  flat_map
    (fun kv =>
       match Map_get raw (fst kv) with
       | Some data =>
           match CryptoUtils.decryptAes256 data (snd kv) with
           | Ok clear => [(fst kv, clear)]
           | Throw _ => []
           end
       | None => []
       end)
    passwords.

(** The world after [lines] were written on the console. *)
Definition logged (lines : list (list string)) (w : World) : World :=
  {| ProfileManager.clientDataRepository := ProfileManager.clientDataRepository w;
     ProfileManager.account := ProfileManager.account w;
     ProfileManager.encrypt := ProfileManager.encrypt w;
     ProfileManager.decrypt := ProfileManager.decrypt w;
     ProfileManager.drawn := ProfileManager.drawn w;
     ProfileManager.console := ProfileManager.console w ++ lines;
     ProfileManager.requests := ProfileManager.requests w |}.

End Properties.

(** ** Maps *)

Lemma Map_set_new (m : Map) (key value : string) :
  ~ In key (keys m) -> Map_set m key value = (m ++ [(key, value)])%list.
Proof.
  induction m as [|[k v] m IH]; simpl; intros Hnin; [reflexivity|].
  destruct (String.eqb_spec k key) as [->|_].
  - exfalso. apply Hnin. now left.
  - rewrite IH; [reflexivity|]. intros Hin. apply Hnin. now right.
Qed.

Lemma keys_app (m m' : Map) : keys (m ++ m')%list = (keys m ++ keys m')%list.
Proof. unfold keys. apply map_app. Qed.

Lemma Map_get_In (m : Map) (key value : string) :
  Map_get m key = Some value -> In key (keys m).
Proof.
  induction m as [|[k v] m IH]; simpl; [discriminate|].
  destruct (String.eqb_spec k key) as [->|_]; [now left|].
  intros H. right. now apply IH.
Qed.

Lemma Map_get_None (m : Map) (key : string) :
  Map_get m key = None <-> ~ In key (keys m).
Proof.
  induction m as [|[k v] m IH]; simpl.
  - tauto.
  - destruct (String.eqb_spec k key) as [->|Hne].
    + split; [discriminate|]. intros H. exfalso. apply H. now left.
    + rewrite IH. tauto.
Qed.

Lemma Map_get_set (m : Map) (key value key' : string) :
  Map_get (Map_set m key value) key' =
  if String.eqb key key' then Some value else Map_get m key'.
Proof.
  induction m as [|[k v] m IH]; simpl.
  - reflexivity.
  - destruct (String.eqb_spec k key) as [->|Hne]; simpl.
    + destruct (String.eqb_spec key key'); reflexivity.
    + rewrite IH. destruct (String.eqb_spec k key') as [->|_]; [|reflexivity].
      destruct (String.eqb_spec key key'); [congruence|reflexivity].
Qed.

Lemma keys_Map_set (m : Map) (key value key' : string) :
  In key' (keys (Map_set m key value)) <-> key' = key \/ In key' (keys m).
Proof.
  induction m as [|[k v] m IH]; simpl.
  - intuition congruence.
  - destruct (String.eqb_spec k key) as [->|Hne]; simpl.
    + intuition congruence.
    + rewrite IH. intuition congruence.
Qed.

(** ** The vault manager *)

Section ProfileManagerTheorems.
Context {S E D J : Type}.
Context {js : JsString}.
Context {store : ClientDataRepository.t S}.
Context {kdf : MessageEncrypt.t E} {envelope : MessageDecrypt.t D}.
Context {aes : CryptoUtils.t}.
Context {json : JSON.t J} {jsonUtils : JsonUtils.t J}.

Local Abbreviation World := (ProfileManager.World S E D).

Implicit Types (w : World) (data acc : Map) (key value : string).

Local Open Scope list_scope.

Lemma prepareData_loop data encrypting :
  ProfileManager.prepareData data encrypting =
  new_Promise (W := World) (forEach data (prepare_each encrypting) []).
Proof. reflexivity. Qed.

Lemma same_but_draws_refl w : same_but_draws w w.
Proof. repeat split. Qed.

(** *** One turn of the loop of [prepareData] *)

Lemma prepare_each_encrypt w key value acc pass c :
  MessageEncrypt.generatePasswordForFiled (ProfileManager.encrypt w) key = Ok pass ->
  CryptoUtils.encryptAes256 value pass (ProfileManager.drawn w) = Ok c ->
  prepare_each true value key acc w =
  (Ok (Map_set acc (toLowerCase key) c), ProfileManager.draw w).
Proof.
  intros Hp Hc.
  unfold prepare_each, bind, ProfileManager.generatePasswordForFiled,
    ProfileManager.encryptAes256, ret.
  now rewrite Hp, Hc.
Qed.

Lemma prepare_each_decrypt w key value acc pass clear :
  MessageEncrypt.generatePasswordForFiled (ProfileManager.encrypt w) key = Ok pass ->
  CryptoUtils.decryptAes256 value pass = Ok clear ->
  prepare_each false value key acc w =
  (Ok (Map_set acc (toLowerCase key) clear), w).
Proof.
  intros Hp Hc.
  unfold prepare_each, bind, ProfileManager.generatePasswordForFiled,
    ProfileManager.decryptAes256, ret.
  now rewrite Hp, Hc.
Qed.

Lemma prepare_each_no_password w encrypting key value acc e :
  MessageEncrypt.generatePasswordForFiled (ProfileManager.encrypt w) key = Throw e ->
  prepare_each encrypting value key acc w = (Throw e, w).
Proof.
  intros Hp.
  unfold prepare_each, bind, ProfileManager.generatePasswordForFiled.
  now rewrite Hp.
Qed.

Lemma prepare_each_decrypt_fails w key value acc pass e :
  MessageEncrypt.generatePasswordForFiled (ProfileManager.encrypt w) key = Ok pass ->
  CryptoUtils.decryptAes256 value pass = Throw e ->
  prepare_each false value key acc w = (Throw e, w).
Proof.
  intros Hp Hc.
  unfold prepare_each, bind, ProfileManager.generatePasswordForFiled,
    ProfileManager.decryptAes256.
  now rewrite Hp, Hc.
Qed.

(** *** The two directions of [prepareData] on a whole vault *)

(** No name of [data] lowercases to a key of [acc]. *)
Local Abbreviation apart data acc :=
  (forall key, In key (keys data) -> ~ In (toLowerCase key) (keys acc)).

Lemma apart_step key value data acc c :
  NoDup (List.map toLowerCase (keys ((key, value) :: data))) ->
  apart ((key, value) :: data) acc ->
  apart data (acc ++ [(toLowerCase key, c)])%list.
Proof.
  intros Hnd Hap k Hk. rewrite keys_app, in_app_iff. simpl.
  intros [Hin|[Heq|[]]].
  - apply (Hap k); [now right|exact Hin].
  - simpl in Hnd. inversion Hnd as [|? ? Hnin _]; subst.
    apply Hnin. rewrite Heq. now apply in_map.
Qed.

Lemma encrypt_loop data :
  round_trip ->
  forall acc w,
    Forall (folds_case (ProfileManager.encrypt w)) (keys data) ->
    NoDup (List.map toLowerCase (keys data)) ->
    apart data acc ->
    exists stored w',
      forEach data (prepare_each true) acc w = (Ok (acc ++ stored)%list, w') /\
      same_but_draws w w' /\
      Forall2 (sealed (ProfileManager.encrypt w)) data stored.
Proof.
  intros Hrt. induction data as [|[key value] data IH]; intros acc w Hfold Hnd Hap.
  - exists [], w. rewrite app_nil_r. repeat split. constructor.
  - simpl in Hfold. inversion Hfold as [|? ? [pass [Hp Hp']] Hfold']; subst.
    destruct (Hrt value pass (ProfileManager.drawn w)) as [c [Hc Hd]].
    destruct (IH (acc ++ [(toLowerCase key, c)])%list (ProfileManager.draw w))
      as [stored [w' [Hrun [Hsame Hall]]]].
    + exact Hfold'.
    + simpl in Hnd. now inversion Hnd.
    + now apply apart_step with (value := value).
    + exists ((toLowerCase key, c) :: stored), w'. split; [|split].
      * simpl. unfold bind at 1.
        rewrite (prepare_each_encrypt _ _ _ _ _ _ Hp Hc).
        rewrite Map_set_new by (apply Hap; now left).
        rewrite Hrun. now rewrite <- app_assoc.
      * exact Hsame.
      * constructor; [|exact Hall].
        split; [reflexivity|]. exists pass. now split.
Qed.

Lemma decrypt_loop e data stored :
  Forall2 (sealed e) data stored ->
  forall acc w,
    ProfileManager.encrypt w = e ->
    Forall (folds_case e) (keys data) ->
    Forall settled (keys data) ->
    NoDup (List.map toLowerCase (keys data)) ->
    apart data acc ->
    forEach stored (prepare_each false) acc w =
    (Ok (acc ++ lowercased data)%list, w).
Proof.
  induction 1 as [|[key value] [key' c] data stored [Hkey [pass [Hp Hd]]] _ IH];
    intros acc w He Hfold Hset Hnd Hap.
  - simpl. now rewrite app_nil_r.
  - simpl in Hkey, Hp, Hd. subst key'.
    simpl in Hfold. inversion Hfold as [|? ? [pass' [Hq Hq']] Hfold']; subst.
    simpl in Hset. inversion Hset as [|? ? Hidem Hset']; subst.
    assert (pass' = pass) by congruence. subst pass'.
    simpl. unfold bind at 1.
    rewrite (prepare_each_decrypt _ _ _ _ _ _ Hq' Hd).
    rewrite Hidem.
    rewrite Map_set_new by (apply Hap; now left).
    rewrite IH.
    + now rewrite <- app_assoc.
    + reflexivity.
    + exact Hfold'.
    + exact Hset'.
    + simpl in Hnd. now inversion Hnd.
    + now apply apart_step with (value := value).
Qed.

Lemma lowercased_id data :
  Forall (fun key => toLowerCase key = key) (keys data) -> lowercased data = data.
Proof.
  induction data as [|[key value] data IH]; simpl; intros H; [reflexivity|].
  inversion H; subst. unfold lowercased in *. simpl. f_equal; [congruence|auto].
Qed.

(** *** Round trip of the own vault *)

Lemma getRawData_inv w anyPublicKey p w1 :
  ProfileManager.getRawData anyPublicKey w = (p, w1) ->
  exists s,
    ClientDataRepository.getData anyPublicKey
      (ProfileManager.clientDataRepository w) = (p, s) /\
    w1 = ProfileManager.sent s (ProfileManager.GetData anyPublicKey) w.
Proof.
  unfold ProfileManager.getRawData.
  destruct (ClientDataRepository.getData _ _) as [p' s].
  intros H. inversion H; subst. now exists s.
Qed.

Lemma write_then_read w data :
  round_trip ->
  echoes (ProfileManager.clientDataRepository w)
         (publicKey (ProfileManager.account w)) ->
  Forall (folds_case (ProfileManager.encrypt w)) (keys data) ->
  Forall settled (keys data) ->
  NoDup (List.map toLowerCase (keys data)) ->
  exists stored w1 w2,
    ProfileManager.updateData data w = (Resolved stored, w1) /\
    keys stored = List.map toLowerCase (keys data) /\
    ProfileManager.getData w1 = (Resolved (lowercased data), w2).
Proof.
  intros Hrt Hecho Hfold Hset Hnd.
  destruct (encrypt_loop data Hrt [] w Hfold Hnd)
    as [stored [w' [Hrun [Hsame Hall]]]]; [intros ? _ []|].
  simpl in Hrun.
  destruct Hsame as [Hrepo [Hacc [Henc _]]].
  destruct (Hecho stored) as [s' [s'' [Hup Hget]]].
  exists stored.
  eexists. eexists. split; [|split].
  - unfold ProfileManager.updateData, then_.
    rewrite prepareData_loop. unfold new_Promise. rewrite Hrun.
    rewrite Hrepo, Hacc, Hup. reflexivity.
  - clear - Hall. induction Hall as [|? ? ? ? [Hk _] _ IH]; simpl; [reflexivity|].
    now rewrite Hk, IH.
  - unfold ProfileManager.getData, then_, ProfileManager.getRawData. simpl.
    rewrite Hacc, Hget.
    rewrite prepareData_loop. unfold new_Promise.
    rewrite (decrypt_loop _ _ _ Hall []); simpl; auto.
Qed.

(** C1, amended.  When the cipher round-trips, the store echoes, the
    password of every field name of the vault derives and is the same
    under the lowercased name, lowercasing a lowercased name of the
    vault changes nothing, and no two names agree after lowercasing,
    [updateData] succeeds and [getData] then returns the vault with its
    field names lowercased (lemma [lowercased_id]: the vault itself
    when [toLowerCase] keeps its names).  [toLowerCase] is any function
    on strings: the one of JavaScript is an instance. *)
Theorem getData_after_updateData w data :
  round_trip ->
  echoes (ProfileManager.clientDataRepository w)
         (publicKey (ProfileManager.account w)) ->
  Forall (folds_case (ProfileManager.encrypt w)) (keys data) ->
  Forall settled (keys data) ->
  NoDup (List.map toLowerCase (keys data)) ->
  exists stored w1 w2,
    ProfileManager.updateData data w = (Resolved stored, w1) /\
    ProfileManager.getData w1 = (Resolved (lowercased data), w2).
Proof.
  intros Hrt Hecho Hfold Hset Hnd.
  destruct (write_then_read w data Hrt Hecho Hfold Hset Hnd)
    as [stored [w1 [w2 [Hup [_ Hget]]]]].
  now exists stored, w1, w2.
Qed.

(** C2, amended.  For a password derivation that gives the name [n]
    and its lowercased form the same password, and a name [n] whose
    lowercased form lowercasing keeps, writing the vault [{n: x}] stores
    the one field under the lowercased name, and reading the field
    [toLowerCase n] of the own vault yields [x].  [toLowerCase] is any
    function on strings: the one of JavaScript is an instance. *)
Theorem read_lowercased_field w n x :
  round_trip ->
  echoes (ProfileManager.clientDataRepository w)
         (publicKey (ProfileManager.account w)) ->
  folds_case (ProfileManager.encrypt w) n ->
  settled n ->
  exists stored w1 vault w2,
    ProfileManager.updateData [(n, x)] w = (Resolved stored, w1) /\
    keys stored = [toLowerCase n] /\
    ProfileManager.getData w1 = (Resolved vault, w2) /\
    Map_get vault (toLowerCase n) = Some x.
Proof.
  intros Hrt Hecho Hfold Hset.
  destruct (write_then_read w [(n, x)] Hrt Hecho)
    as [stored [w1 [w2 [Hup [Hkeys Hget]]]]].
  - now constructor.
  - now constructor.
  - simpl. constructor; [intros []|constructor].
  - exists stored, w1, (lowercased [(n, x)]), w2.
    repeat split; auto. simpl. now rewrite String.eqb_refl.
Qed.

(** *** Failures on the own vault *)

Lemma decrypt_loop_first_failure e before key value after pass err :
  Forall (readable e) before ->
  MessageEncrypt.generatePasswordForFiled e key = Ok pass ->
  CryptoUtils.decryptAes256 value pass = Throw err ->
  forall acc w,
    ProfileManager.encrypt w = e ->
    forEach (before ++ (key, value) :: after) (prepare_each false) acc w =
    (Throw err, w).
Proof.
  intros Hbefore Hp Hd.
  induction Hbefore as [|[k v] before [p [clear [Hkp Hkd]]] _ IH];
    intros acc w He; subst e; simpl; unfold bind at 1.
  - now rewrite (prepare_each_decrypt_fails _ _ _ _ _ _ Hp Hd).
  - simpl in Hkp, Hkd. rewrite (prepare_each_decrypt _ _ _ _ _ _ Hkp Hkd).
    now apply IH.
Qed.

Lemma decrypt_loop_any_failure e raw key value pass err :
  In (key, value) raw ->
  MessageEncrypt.generatePasswordForFiled e key = Ok pass ->
  CryptoUtils.decryptAes256 value pass = Throw err ->
  forall acc w,
    ProfileManager.encrypt w = e ->
    exists err', forEach raw (prepare_each false) acc w = (Throw err', w).
Proof.
  intros Hin Hp Hd.
  induction raw as [|[k v] raw IH]; intros acc w He; [contradiction|].
  subst e. simpl. unfold bind at 1.
  destruct (MessageEncrypt.generatePasswordForFiled (ProfileManager.encrypt w) k)
    as [p|err0] eqn:Hkp.
  - destruct (CryptoUtils.decryptAes256 v p) as [clear|err0] eqn:Hkd.
    + rewrite (prepare_each_decrypt _ _ _ _ _ _ Hkp Hkd).
      destruct Hin as [Heq|Hin]; [|now apply IH].
      inversion Heq; subst. congruence.
    + rewrite (prepare_each_decrypt_fails _ _ _ _ _ _ Hkp Hkd). now exists err0.
  - rewrite (prepare_each_no_password _ _ _ _ _ _ Hkp). now exists err0.
Qed.

Lemma getRawData_encrypt w anyPublicKey p w1 :
  ProfileManager.getRawData anyPublicKey w = (p, w1) ->
  ProfileManager.encrypt w1 = ProfileManager.encrypt w.
Proof. intros H. apply getRawData_inv in H as [s [_ ->]]. reflexivity. Qed.

(** C4.  Once the raw vault is fetched, a field of it whose symmetric
    decryption fails makes [getData] fail: the promise is rejected,
    never fulfilled with a part of the vault, and nothing but the
    fetch has happened.  The error is the one of that field as soon as
    the fields before it are readable. *)
Theorem getData_decryption_failure w raw w1 key value pass err :
  ProfileManager.getRawData (publicKey (ProfileManager.account w)) w =
    (Resolved raw, w1) ->
  In (key, value) raw ->
  MessageEncrypt.generatePasswordForFiled (ProfileManager.encrypt w) key = Ok pass ->
  CryptoUtils.decryptAes256 value pass = Throw err ->
  exists err',
    ProfileManager.getData w = (Rejected err', w1) /\
    forall before after,
      raw = (before ++ (key, value) :: after)%list ->
      Forall (readable (ProfileManager.encrypt w)) before ->
      err' = err.
Proof.
  intros Hraw Hin Hp Hd.
  pose proof (getRawData_encrypt w _ _ w1 Hraw) as He.
  destruct (decrypt_loop_any_failure _ raw key value pass err Hin Hp Hd [] w1 He)
    as [err' Hrun].
  exists err'. split.
  - unfold ProfileManager.getData, then_. rewrite Hraw.
    rewrite prepareData_loop. unfold new_Promise. now rewrite Hrun.
  - intros before after -> Hbefore.
    rewrite (decrypt_loop_first_failure _ before key value after pass err
               Hbefore Hp Hd [] w1 He) in Hrun.
    congruence.
Qed.

(** *** Failures of a write *)

Lemma prepare_each_encrypt_fails w key value acc pass e :
  MessageEncrypt.generatePasswordForFiled (ProfileManager.encrypt w) key = Ok pass ->
  CryptoUtils.encryptAes256 value pass (ProfileManager.drawn w) = Throw e ->
  prepare_each true value key acc w = (Throw e, ProfileManager.draw w).
Proof.
  intros Hp Hc.
  unfold prepare_each, bind, ProfileManager.generatePasswordForFiled,
    ProfileManager.encryptAes256.
  now rewrite Hp, Hc.
Qed.

Lemma encrypt_loop_failure e data kv :
  In kv data ->
  unwritable e kv ->
  forall acc w,
    ProfileManager.encrypt w = e ->
    exists err w',
      forEach data (prepare_each true) acc w = (Throw err, w') /\
      same_but_draws w w'.
Proof.
  intros Hin Hbad.
  induction data as [|[k v] data IH]; intros acc w He; [contradiction|].
  subst e. simpl. unfold bind at 1.
  destruct (MessageEncrypt.generatePasswordForFiled (ProfileManager.encrypt w) k)
    as [p|err0] eqn:Hkp.
  - destruct (CryptoUtils.encryptAes256 v p (ProfileManager.drawn w))
      as [c|err0] eqn:Hkc.
    + rewrite (prepare_each_encrypt _ _ _ _ _ _ Hkp Hkc).
      destruct Hin as [<-|Hin].
      * exfalso. destruct Hbad as [[err Hb]|[pass [Hb Hall]]]; simpl in *.
        -- congruence.
        -- assert (pass = p) by congruence. subst pass.
           destruct (Hall (ProfileManager.drawn w)) as [err Herr]. congruence.
      * destruct (IH Hin (Map_set acc (toLowerCase k) c) (ProfileManager.draw w))
          as [err [w' [Hrun Hsame]]]; [reflexivity|].
        exists err, w'. split; [exact Hrun|exact Hsame].
    + rewrite (prepare_each_encrypt_fails _ _ _ _ _ _ Hkp Hkc).
      exists err0, (ProfileManager.draw w). split; [reflexivity|repeat split].
  - rewrite (prepare_each_no_password _ _ _ _ _ _ Hkp).
    exists err0, w. split; [reflexivity|apply same_but_draws_refl].
Qed.

(** C6.  When the password of a field of the input vault does not
    derive, or its value cannot be encrypted, [updateData] fails, the
    vault store is in the state it was in, and no request was sent to
    it. *)
Theorem updateData_atomic w data kv :
  In kv data ->
  unwritable (ProfileManager.encrypt w) kv ->
  exists err w',
    ProfileManager.updateData data w = (Rejected err, w') /\
    ProfileManager.clientDataRepository w' = ProfileManager.clientDataRepository w /\
    ProfileManager.requests w' = ProfileManager.requests w.
Proof.
  intros Hin Hbad.
  destruct (encrypt_loop_failure _ data kv Hin Hbad [] w eq_refl)
    as [err [w' [Hrun Hsame]]].
  exists err, w'. split.
  - unfold ProfileManager.updateData, then_.
    rewrite prepareData_loop. unfold new_Promise. now rewrite Hrun.
  - destruct Hsame as [Hrepo [_ [_ [_ [_ Hreq]]]]]. now split.
Qed.

(** *** Reading a disclosed vault *)

Lemma getAuthorizedData_loop recipientPk encryptedData :
  ProfileManager.getAuthorizedData recipientPk encryptedData =
  new_Promise_then (W := World)
    (strDecrypt <- ProfileManager.decryptMessage recipientPk encryptedData ;;
     jsonDecrypt <- ProfileManager.JSON_parse (J := J) strDecrypt ;;
     ProfileManager.jsonToMap jsonDecrypt)
    (fun _ => ProfileManager.getRawData recipientPk)
    (fun arrayResponse recipientData =>
       forEach arrayResponse (disclose_each recipientData) []).
Proof. reflexivity. Qed.

Lemma logged_nil w : logged [] w = w.
Proof. destruct w. unfold logged. simpl. now rewrite app_nil_r. Qed.

Lemma logged_logged lines lines' w :
  logged lines' (logged lines w) = logged (lines ++ lines') w.
Proof. unfold logged. simpl. now rewrite app_assoc. Qed.

Lemma disclose_loop raw passwords :
  forall acc w,
    forEach passwords (disclose_each raw) acc w =
    (Ok (disclose_all raw passwords acc), logged (complaints raw passwords) w).
Proof.
  induction passwords as [|[key pass] passwords IH]; intros acc w.
  - simpl. unfold ret. now rewrite logged_nil.
  - simpl. unfold bind at 1, disclose_each at 1.
    destruct (Map_get raw key) as [data|]; simpl.
    + unfold ProfileManager.try_catch, bind, ProfileManager.decryptAes256.
      destruct (CryptoUtils.decryptAes256 data pass) as [clear|err]; simpl.
      * apply IH.
      * rewrite IH. unfold logged. simpl. now rewrite <- app_assoc.
    + apply IH.
Qed.

Lemma Map_get_In_pair (m : Map) key value :
  Map_get m key = Some value -> In (key, value) m.
Proof.
  induction m as [|[k v] m IH]; simpl; [discriminate|].
  destruct (String.eqb_spec k key) as [->|_].
  - intros H. inversion H. now left.
  - intros H. right. now apply IH.
Qed.

Lemma disclose_all_keys raw passwords :
  forall acc key,
    In key (keys (disclose_all raw passwords acc)) ->
    In key (keys acc) \/ (In key (keys passwords) /\ In key (keys raw)).
Proof.
  induction passwords as [|[k pass] passwords IH]; intros acc key; simpl.
  - now left.
  - intros Hin. apply IH in Hin as [Hin|[Hp Hr]]; [|right; tauto].
    destruct (Map_get raw k) as [data|] eqn:Hraw; [|now left].
    destruct (CryptoUtils.decryptAes256 data pass) as [clear|err]; [|now left].
    apply keys_Map_set in Hin as [->|Hin]; [|now left].
    right. split; [now left|]. now apply Map_get_In with data.
Qed.

Lemma disclose_all_get raw passwords :
  NoDup (keys passwords) ->
  forall acc,
    (forall key, In key (keys passwords) -> ~ In key (keys acc)) ->
    forall key,
      Map_get (disclose_all raw passwords acc) key =
      match disclosed raw passwords key with
      | Some clear => Some clear
      | None => Map_get acc key
      end.
Proof.
  induction passwords as [|[k pass] passwords IH]; intros Hnd acc Hap key.
  - reflexivity.
  - simpl in Hnd. inversion Hnd as [|? ? Hk Hnd']; subst.
    simpl. rewrite IH; [|exact Hnd'|].
    + unfold disclosed. simpl.
      destruct (String.eqb_spec k key) as [->|Hne].
      * assert (Hrest : Map_get passwords key = None) by now apply Map_get_None.
        rewrite Hrest.
        destruct (Map_get raw key) as [data|]; [|reflexivity].
        destruct (CryptoUtils.decryptAes256 data pass) as [clear|err]; [|reflexivity].
        rewrite Map_get_set. now rewrite String.eqb_refl.
      * assert (Hsame : forall clear, Map_get (Map_set acc k clear) key = Map_get acc key).
        { intros clear. rewrite Map_get_set.
          destruct (String.eqb_spec k key); [contradiction|reflexivity]. }
        destruct (Map_get raw k) as [data|]; [|reflexivity].
        destruct (CryptoUtils.decryptAes256 data pass) as [clear|err]; [|reflexivity].
        now rewrite Hsame.
    + intros k' Hk' Hin.
      assert (Hin' : k' = k \/ In k' (keys acc)).
      { destruct (Map_get raw k) as [data|]; [|now right].
        destruct (CryptoUtils.decryptAes256 data pass) as [clear|err]; [|now right].
        now apply keys_Map_set in Hin. }
      destruct Hin' as [->|Hin']; [contradiction|].
      apply (Hap k'); [now right|exact Hin'].
Qed.

Lemma getAuthorizedData_runs w recipientPk encryptedData passwords raw w1 :
  discloses (ProfileManager.decrypt w) recipientPk encryptedData passwords ->
  ProfileManager.getRawData recipientPk w = (Resolved raw, w1) ->
  ProfileManager.getAuthorizedData recipientPk encryptedData w =
  (Resolved (disclose_all raw passwords []), logged (complaints raw passwords) w1).
Proof.
  intros [strDecrypt [jsonDecrypt [Hopen [Hparse Hmap]]]] Hraw.
  rewrite getAuthorizedData_loop.
  unfold new_Promise_then, bind, ProfileManager.decryptMessage,
    ProfileManager.JSON_parse, ProfileManager.jsonToMap.
  rewrite Hopen, Hparse, Hmap, Hraw. now rewrite disclose_loop.
Qed.

(** C3.  When the envelope opens to a password map and the raw vault
    of the owner is fetched, [getAuthorizedData] is fulfilled whatever
    the symmetric decryptions do.  A field of the password map that
    the raw vault has is in the result, decrypted, when its decryption
    succeeds; when it fails the field is not in the result and the
    console has the line about it. *)
Theorem getAuthorizedData_skips_failed_fields
    w recipientPk encryptedData passwords raw w1 :
  discloses (ProfileManager.decrypt w) recipientPk encryptedData passwords ->
  NoDup (keys passwords) ->
  ProfileManager.getRawData recipientPk w = (Resolved raw, w1) ->
  exists result w',
    ProfileManager.getAuthorizedData recipientPk encryptedData w =
      (Resolved result, w') /\
    (forall key pass cipher clear,
        Map_get passwords key = Some pass ->
        Map_get raw key = Some cipher ->
        CryptoUtils.decryptAes256 cipher pass = Ok clear ->
        Map_get result key = Some clear) /\
    (forall key pass cipher err,
        Map_get passwords key = Some pass ->
        Map_get raw key = Some cipher ->
        CryptoUtils.decryptAes256 cipher pass = Throw err ->
        Map_get result key = None /\
        In ["decryption error: "; key; cipher] (ProfileManager.console w')).
Proof.
  intros Hopen Hnd Hraw.
  exists (disclose_all raw passwords []), (logged (complaints raw passwords) w1).
  split; [now apply getAuthorizedData_runs|].
  assert (Hget : forall key,
             Map_get (disclose_all raw passwords []) key =
             disclosed raw passwords key).
  { intros key. rewrite disclose_all_get; [|exact Hnd|intros ? _ []].
    now destruct (disclosed raw passwords key). }
  split.
  - intros key pass cipher clear Hp Hr Hd.
    rewrite Hget. unfold disclosed. now rewrite Hp, Hr, Hd.
  - intros key pass cipher err Hp Hr Hd. split.
    + rewrite Hget. unfold disclosed. now rewrite Hp, Hr, Hd.
    + simpl. apply in_or_app. right. unfold complaints.
      apply in_flat_map. exists (key, pass). split.
      * now apply Map_get_In_pair.
      * simpl. rewrite Hr, Hd. now left.
Qed.

(** C5.  When the envelope opens to a password map and the raw vault
    of the owner is fetched, every field name of the result of
    [getAuthorizedData] is a name of the password map and a name of
    the raw vault; the result is empty when the password map is. *)
Theorem getAuthorizedData_within_disclosure
    w recipientPk encryptedData passwords raw w1 :
  discloses (ProfileManager.decrypt w) recipientPk encryptedData passwords ->
  ProfileManager.getRawData recipientPk w = (Resolved raw, w1) ->
  exists result w',
    ProfileManager.getAuthorizedData recipientPk encryptedData w =
      (Resolved result, w') /\
    (forall key, In key (keys result) ->
                 In key (keys passwords) /\ In key (keys raw)) /\
    (passwords = [] -> result = []).
Proof.
  intros Hopen Hraw.
  exists (disclose_all raw passwords []), (logged (complaints raw passwords) w1).
  split; [now apply getAuthorizedData_runs|]. split.
  - intros key Hin. now apply disclose_all_keys in Hin as [[]|Hin].
  - now intros ->.
Qed.

(** C10.  When the envelope does not open, or opens to a text that
    [JSON.parse] refuses, [getAuthorizedData] is rejected with that
    error and the world is the one before the call: nothing was asked
    of the vault store. *)
Theorem getAuthorizedData_bad_envelope w recipientPk encryptedData err :
  MessageDecrypt.decryptMessage (ProfileManager.decrypt w) recipientPk
    encryptedData = Throw err \/
  (exists strDecrypt,
      MessageDecrypt.decryptMessage (ProfileManager.decrypt w) recipientPk
        encryptedData = Ok strDecrypt /\
      JSON.parse (J := J) strDecrypt = Throw err) ->
  ProfileManager.getAuthorizedData recipientPk encryptedData w =
  (Rejected err, w).
Proof.
  intros H. rewrite getAuthorizedData_loop.
  unfold new_Promise_then, bind, ProfileManager.decryptMessage,
    ProfileManager.JSON_parse.
  destruct H as [Hopen|[strDecrypt [Hopen Hparse]]].
  - now rewrite Hopen.
  - now rewrite Hopen, Hparse.
Qed.

(** *** Failures of the vault store *)

Lemma getData_store_failure w err w1 :
  ProfileManager.getRawData (publicKey (ProfileManager.account w)) w =
    (Rejected err, w1) ->
  ProfileManager.getData w = (Rejected err, w1).
Proof.
  intros Hraw. unfold ProfileManager.getData, then_. now rewrite Hraw.
Qed.

Lemma updateData_store_failure w data encrypted w' err s :
  ProfileManager.prepareData data true w = (Resolved encrypted, w') ->
  ClientDataRepository.updateData (publicKey (ProfileManager.account w'))
    encrypted (ProfileManager.clientDataRepository w') = (Rejected err, s) ->
  fst (ProfileManager.updateData data w) = Rejected err.
Proof.
  intros Hprep Hup. unfold ProfileManager.updateData, then_.
  now rewrite Hprep, Hup.
Qed.

(** C8.  When the envelope opens and the vault store fails to serve
    the raw vault of the owner, the promise of [getAuthorizedData] is
    neither rejected nor fulfilled: it stays pending. *)
Theorem getAuthorizedData_store_failure
    w recipientPk encryptedData passwords err w1 :
  discloses (ProfileManager.decrypt w) recipientPk encryptedData passwords ->
  ProfileManager.getRawData recipientPk w = (Rejected err, w1) ->
  ProfileManager.getAuthorizedData recipientPk encryptedData w = (Pending, w1).
Proof.
  intros [strDecrypt [jsonDecrypt [Hopen [Hparse Hmap]]]] Hraw.
  rewrite getAuthorizedData_loop.
  unfold new_Promise_then, bind, ProfileManager.decryptMessage,
    ProfileManager.JSON_parse, ProfileManager.jsonToMap.
  now rewrite Hopen, Hparse, Hmap, Hraw.
Qed.

End ProfileManagerTheorems.

(** ** The identity manager *)

Section AccountManagerTheorems.
Context {R K : Type}.
Context {authority : AccountRepository.t R}.
Context {helper : KeyPairHelper.t K} {signer : MessageSigner.t K}.

Local Abbreviation World := (AccountManager.World R K).

Implicit Types (w : World) (a acc : Account) (msg mnemonicPhrase : string).

Local Open Scope list_scope.

Lemma onGetAccount_inv w acc msg a w' :
  AccountManager.onGetAccount acc msg w = (Resolved a, w') ->
  exists sg,
    MessageSigner.signMessage msg (AccountManager.keyPairCreator w) =
      (Resolved sg, AccountManager.keyPairCreator w') /\
    a = {| publicKey := publicKey acc; message := msg; sig := sg |} /\
    AccountManager.accountRepository w' = AccountManager.accountRepository w /\
    AccountManager.authAccountBehavior w' =
      BehaviorSubject.next a (AccountManager.authAccountBehavior w).
Proof.
  unfold AccountManager.onGetAccount, then_, AccountManager.signMessage.
  destruct (MessageSigner.signMessage msg _) as [[sg|e|] k]; try discriminate.
  unfold new_Promise, bind, AccountManager.authAccountBehavior_next, ret. simpl.
  intros H. inversion H; subst; clear H. exists sg. simpl. auto.
Qed.

(** The start of the three methods: the pair is made and the account
    to send is built from its public key. *)
Lemma generateAccount_inv w mnemonicPhrase acc w1 :
  then_ (AccountManager.createKeyPair mnemonicPhrase)
        AccountManager.generateAccount w = (Resolved acc, w1) ->
  exists keyPair,
    KeyPairHelper.createKeyPair mnemonicPhrase (AccountManager.keyPairCreator w) =
      (Resolved keyPair, AccountManager.keyPairCreator w1) /\
    acc = new_Account (kp_publicKey keyPair) /\
    AccountManager.accountRepository w1 = AccountManager.accountRepository w /\
    AccountManager.authAccountBehavior w1 = AccountManager.authAccountBehavior w.
Proof.
  unfold then_, AccountManager.createKeyPair.
  destruct (KeyPairHelper.createKeyPair mnemonicPhrase _) as [[keyPair|e|] k];
    try discriminate.
  unfold AccountManager.generateAccount, new_Promise, ret.
  intros H. inversion H; subst; clear H. exists keyPair. simpl. auto.
Qed.

Lemma ask_inv method w acc acc' w' :
  AccountManager.ask method acc w = (Resolved acc', w') ->
  method acc (AccountManager.accountRepository w) =
    (Resolved acc', AccountManager.accountRepository w') /\
  AccountManager.keyPairCreator w' = AccountManager.keyPairCreator w /\
  AccountManager.authAccountBehavior w' = AccountManager.authAccountBehavior w.
Proof.
  unfold AccountManager.ask.
  destruct (method acc _) as [p r]. intros H. inversion H; subst. simpl. auto.
Qed.

Lemma then_inv {A B} (p : Async World A) (f : A -> Async World B) w b w' :
  then_ p f w = (Resolved b, w') ->
  exists x w1, p w = (Resolved x, w1) /\ f x w1 = (Resolved b, w').
Proof.
  unfold then_. destruct (p w) as [[x|e|] w1]; try discriminate.
  intros H. now exists x, w1.
Qed.

(** C7.  When the key pair is made, the authority answers the
    [registration] (or the [checkAccount]) with an account and the
    signer signs the message, the call succeeds: it returns the account
    the authority answered with the message and the signature of the
    message set on it, that account is the value of the subject
    afterwards, and it is the one value delivered to the observers by
    the call.  A call succeeds in no other way: every [registration] or
    [checkAccount] that succeeds has returned and published such an
    account. *)
Theorem successful_login_publishes w mnemonicPhrase msg :
  (forall keyPair k acc r sg k',
      KeyPairHelper.createKeyPair mnemonicPhrase (AccountManager.keyPairCreator w) =
        (Resolved keyPair, k) ->
      MessageSigner.signMessage msg k = (Resolved sg, k') ->
      let a := {| publicKey := publicKey acc; message := msg; sig := sg |} in
      let w' :=
        AccountManager.mkWorld r k'
          (BehaviorSubject.mk a
             (BehaviorSubject.emitted (AccountManager.authAccountBehavior w) ++ [a])) in
      (AccountRepository.registration (new_Account (kp_publicKey keyPair))
         (AccountManager.accountRepository w) = (Resolved acc, r) ->
       AccountManager.registration mnemonicPhrase msg w = (Resolved a, w')) /\
      (AccountRepository.checkAccount (new_Account (kp_publicKey keyPair))
         (AccountManager.accountRepository w) = (Resolved acc, r) ->
       AccountManager.checkAccount mnemonicPhrase msg w = (Resolved a, w'))) /\
  (forall a w',
      AccountManager.registration mnemonicPhrase msg w = (Resolved a, w') \/
      AccountManager.checkAccount mnemonicPhrase msg w = (Resolved a, w') ->
      exists keyPair k acc,
        KeyPairHelper.createKeyPair mnemonicPhrase (AccountManager.keyPairCreator w) =
          (Resolved keyPair, k) /\
        (AccountRepository.registration (new_Account (kp_publicKey keyPair))
           (AccountManager.accountRepository w) =
           (Resolved acc, AccountManager.accountRepository w') \/
         AccountRepository.checkAccount (new_Account (kp_publicKey keyPair))
           (AccountManager.accountRepository w) =
           (Resolved acc, AccountManager.accountRepository w')) /\
        MessageSigner.signMessage msg k =
          (Resolved (sig a), AccountManager.keyPairCreator w') /\
        a = {| publicKey := publicKey acc; message := msg; sig := sig a |} /\
        BehaviorSubject.getValue (AccountManager.authAccountBehavior w') = a /\
        BehaviorSubject.emitted (AccountManager.authAccountBehavior w') =
          BehaviorSubject.emitted (AccountManager.authAccountBehavior w) ++ [a]).
Proof.
  split.
  - intros keyPair k acc r sg k' Hkp Hsig a w'.
    unfold AccountManager.registration, AccountManager.checkAccount,
      AccountManager.getAccount, AccountManager.onGetAccount,
      AccountManager.generateAccount, AccountManager.ask,
      AccountManager.createKeyPair, AccountManager.signMessage,
      AccountManager.authAccountBehavior_next, then_, new_Promise, bind, ret.
    rewrite Hkp. simpl.
    split; intros Hask; rewrite Hask; simpl; rewrite Hsig; reflexivity.
  - intros a w' [H|H].
    + unfold AccountManager.registration in H.
      apply then_inv in H as [acc [w2 [H Hget]]].
      apply then_inv in H as [acc0 [w1 [Hgen Hask]]].
      apply generateAccount_inv in Hgen as [keyPair [Hkp [-> [Hr1 Hs1]]]].
      apply ask_inv in Hask as [Hask [Hk2 Hs2]].
      apply onGetAccount_inv in Hget as [sg [Hsig [Ha [Hr3 Hs3]]]].
      exists keyPair, (AccountManager.keyPairCreator w1), acc.
      subst a. rewrite Hs3, Hs2, Hs1, Hr3.
      rewrite Hk2 in Hsig. rewrite Hr1 in Hask. simpl. auto 10.
    + unfold AccountManager.checkAccount, AccountManager.getAccount in H.
      apply then_inv in H as [acc0 [w1 [Hgen H]]].
      apply then_inv in H as [acc [w2 [Hask Hget]]].
      apply generateAccount_inv in Hgen as [keyPair [Hkp [-> [Hr1 Hs1]]]].
      apply ask_inv in Hask as [Hask [Hk2 Hs2]].
      apply onGetAccount_inv in Hget as [sg [Hsig [Ha [Hr3 Hs3]]]].
      exists keyPair, (AccountManager.keyPairCreator w1), acc.
      subst a. rewrite Hs3, Hs2, Hs1, Hr3.
      rewrite Hk2 in Hsig. rewrite Hr1 in Hask. simpl. auto 10.
Qed.

(** C9.  Whatever the key pair helper and the account authority
    answer, [unsubscribe] leaves the subject as it was: its value is
    the one before the call and nothing is delivered to the
    observers. *)
Theorem unsubscribe_keeps_identity w mnemonicPhrase :
  AccountManager.authAccountBehavior
    (snd (AccountManager.unsubscribe mnemonicPhrase w)) =
  AccountManager.authAccountBehavior w.
Proof.
  unfold AccountManager.unsubscribe, then_, AccountManager.createKeyPair.
  destruct (KeyPairHelper.createKeyPair mnemonicPhrase _) as [[keyPair|e|] k];
    simpl; try reflexivity.
  unfold AccountManager.ask. simpl.
  destruct (AccountRepository.unsubscribe _ _) as [p r]. reflexivity.
Qed.

End AccountManagerTheorems.

(** ** Runs on the test doubles *)

Section Runs.
Import Mock.

Local Open Scope list_scope.

Example toLowerCase_Name : toLowerCase "Name" = "name".
Proof. reflexivity. Qed.

Lemma lower_ascii_idem (c : ascii) : lower_ascii (lower_ascii c) = lower_ascii c.
Proof. destruct c as [[] [] [] [] [] [] [] []]; reflexivity. Qed.

(** The fold of ASCII letters keeps what it has folded. *)
Lemma mock_settled (name : string) : settled name.
Proof.
  unfold settled. simpl.
  induction name as [|c name IH]; simpl; [reflexivity|].
  now rewrite lower_ascii_idem, IH.
Qed.

(** Two writes of one vault: the cipher texts differ by the draw, and
    the vault read back is the same. *)
Example updateData_twice :
  let w1 := snd (ProfileManager.updateData [("email", "im@host.com")]
                   (alisa true true [])) in
  let w2 := snd (ProfileManager.updateData [("email", "im@host.com")] w1) in
  fst (ProfileManager.updateData [("email", "im@host.com")] (alisa true true [])) =
    Resolved [("email", "0alisa/email|im@host.com")] /\
  fst (ProfileManager.updateData [("email", "im@host.com")] w1) =
    Resolved [("email", "1alisa/email|im@host.com")] /\
  fst (ProfileManager.getData w1) = Resolved [("email", "im@host.com")] /\
  fst (ProfileManager.getData w2) = Resolved [("email", "im@host.com")].
Proof. repeat split. Qed.

(** The stale share: Alisa reads the [name] of Bob, the [email] whose
    password is stale is left out and written on the console, the
    [phone] that was not disclosed is left out. *)
Example getAuthorizedData_stale_share :
  ProfileManager.getAuthorizedData "pub:bob" "alisa>name:bob/name;email:stale;"
    reader =
  (Resolved [("name", "Bob")],
   logged [["decryption error: "; "email"; "0bob/email|b@x.com"]]
     (ProfileManager.sent (ProfileManager.clientDataRepository reader)
        (ProfileManager.GetData "pub:bob") reader)).
Proof. reflexivity. Qed.

(** An envelope for somebody else does not open. *)
Example getAuthorizedData_foreign_envelope :
  ProfileManager.getAuthorizedData "pub:bob" "carol>name:bob/name;" reader =
  (Rejected "DecryptionError", reader).
Proof. reflexivity. Qed.

(** Unsubscribing an identity that was never registered. *)
Example unsubscribe_unknown :
  fst (AccountManager.unsubscribe "owner secret" (fresh [])) =
  Rejected "NotFoundError".
Proof. reflexivity. Qed.

Lemma strip_prefix_app (a b s : string) :
  strip_prefix (a ++ b)%string (a ++ s)%string = strip_prefix b s.
Proof.
  induction a as [|c a IH]; simpl; [reflexivity|].
  now rewrite Ascii.eqb_refl.
Qed.

Lemma mock_round_trip : round_trip (aes := Mock.aes).
Proof.
  intros value pass iv. eexists. split; [reflexivity|].
  cbn. rewrite (strip_prefix_app pass "|" (String "|" value)).
  reflexivity.
Qed.

Lemma mock_echoes (vs : list (string * Map)) (pk : string) :
  echoes (mkStore true vs) pk.
Proof.
  intros m. eexists. eexists. split; [reflexivity|].
  simpl. now rewrite String.eqb_refl.
Qed.

(** Alisa writes a vault with a capitalised name and reads it back. *)
Lemma getData_after_updateData_witness :
  exists stored w1 w2,
    ProfileManager.updateData [("Name", "x"); ("email", "o@x.com")]
      (alisa true true []) = (Resolved stored, w1) /\
    ProfileManager.getData w1 =
      (Resolved [("name", "x"); ("email", "o@x.com")], w2).
Proof.
  apply (getData_after_updateData (js := ascii_names) (alisa true true [])
           [("Name", "x"); ("email", "o@x.com")]).
  - exact mock_round_trip.
  - apply mock_echoes.
  - repeat constructor; (eexists; split; reflexivity).
  - repeat constructor.
  - repeat constructor; simpl; intuition discriminate.
Defined.

(** C1 as stated fails: the vault read back has the name lowercased,
    it is not the vault written. *)
Lemma capitalised_name_is_renamed :
  round_trip (aes := Mock.aes) /\
  echoes (ProfileManager.clientDataRepository (alisa true true []))
         (publicKey (ProfileManager.account (alisa true true []))) /\
  exists stored w1 w2,
    ProfileManager.updateData [("Name", "x")] (alisa true true []) =
      (Resolved stored, w1) /\
    ProfileManager.getData w1 = (Resolved [("name", "x")], w2) /\
    [("name", "x")] <> [("Name", "x")].
Proof.
  split; [exact mock_round_trip|]. split; [apply mock_echoes|].
  eexists. eexists. eexists. split; [reflexivity|]. split; [reflexivity|].
  discriminate.
Qed.

Lemma read_lowercased_field_witness :
  exists stored w1 vault w2,
    ProfileManager.updateData [("Name", "x")] (alisa true true []) =
      (Resolved stored, w1) /\
    keys stored = ["name"] /\
    ProfileManager.getData w1 = (Resolved vault, w2) /\
    Map_get vault "name" = Some "x".
Proof.
  apply (read_lowercased_field (js := ascii_names) (alisa true true []) "Name" "x").
  - exact mock_round_trip.
  - apply mock_echoes.
  - eexists. split; reflexivity.
  - reflexivity.
Defined.

(** C2 as stated fails: with a derivation that tells [Name] from
    [name], the field written as [Name] is stored as [name] under the
    password of [Name], and the read derives the password of [name]:
    the decryption fails and so does the read. *)
Lemma case_sensitive_derivation_breaks_read :
  round_trip (aes := Mock.aes) /\
  echoes (ProfileManager.clientDataRepository (alisa false true []))
         (publicKey (ProfileManager.account (alisa false true []))) /\
  exists stored w1 w2,
    ProfileManager.updateData [("Name", "x")] (alisa false true []) =
      (Resolved stored, w1) /\
    keys stored = ["name"] /\
    ProfileManager.getData w1 = (Rejected "DecryptionError", w2).
Proof.
  split; [exact mock_round_trip|]. split; [apply mock_echoes|].
  eexists. eexists. eexists. repeat split; reflexivity.
Qed.

Lemma getAuthorizedData_skips_failed_fields_witness :
  exists result w',
    ProfileManager.getAuthorizedData "pub:bob"
      "alisa>name:bob/name;email:stale;" reader = (Resolved result, w') /\
    (forall key pass cipher clear,
        Map_get bobs_passwords key = Some pass ->
        Map_get bobs_vault key = Some cipher ->
        CryptoUtils.decryptAes256 cipher pass = Ok clear ->
        Map_get result key = Some clear) /\
    (forall key pass cipher err,
        Map_get bobs_passwords key = Some pass ->
        Map_get bobs_vault key = Some cipher ->
        CryptoUtils.decryptAes256 cipher pass = Throw err ->
        Map_get result key = None /\
        In ["decryption error: "; key; cipher] (ProfileManager.console w')).
Proof.
  apply (getAuthorizedData_skips_failed_fields (J := Map) reader "pub:bob"
           "alisa>name:bob/name;email:stale;" bobs_passwords bobs_vault
           (ProfileManager.sent (ProfileManager.clientDataRepository reader)
              (ProfileManager.GetData "pub:bob") reader)).
  - eexists. eexists. repeat split; reflexivity.
  - repeat constructor; simpl; intuition discriminate.
  - reflexivity.
Defined.

Lemma getAuthorizedData_within_disclosure_witness :
  exists result w',
    ProfileManager.getAuthorizedData "pub:bob"
      "alisa>name:bob/name;email:stale;" reader = (Resolved result, w') /\
    (forall key, In key (keys result) ->
                 In key (keys bobs_passwords) /\ In key (keys bobs_vault)) /\
    (bobs_passwords = [] -> result = []).
Proof.
  apply (getAuthorizedData_within_disclosure (J := Map) reader "pub:bob"
           "alisa>name:bob/name;email:stale;" bobs_passwords bobs_vault
           (ProfileManager.sent (ProfileManager.clientDataRepository reader)
              (ProfileManager.GetData "pub:bob") reader)).
  - eexists. eexists. repeat split; reflexivity.
  - reflexivity.
Defined.

Lemma getData_decryption_failure_witness :
  ProfileManager.getData damaged =
  (Rejected "DecryptionError",
   ProfileManager.sent (ProfileManager.clientDataRepository damaged)
     (ProfileManager.GetData "pub:alisa") damaged).
Proof.
  destruct (getData_decryption_failure damaged
              [("name", "0alisa/name|x"); ("email", "garbage")]
              (ProfileManager.sent (ProfileManager.clientDataRepository damaged)
                 (ProfileManager.GetData "pub:alisa") damaged)
              "email" "garbage" "alisa/email" "DecryptionError")
    as [err' [Hrun Hfirst]].
  - reflexivity.
  - simpl. auto.
  - reflexivity.
  - reflexivity.
  - rewrite <- (Hfirst [("name", "0alisa/name|x")] [] eq_refl); [exact Hrun|].
    repeat constructor. eexists. eexists. split; reflexivity.
Defined.

Lemma updateData_atomic_witness :
  exists err w',
    ProfileManager.updateData [("name", "x"); ("", "y")] (alisa true true []) =
      (Rejected err, w') /\
    ProfileManager.clientDataRepository w' = mkStore true [] /\
    ProfileManager.requests w' = [].
Proof.
  apply (updateData_atomic (alisa true true []) [("name", "x"); ("", "y")]
           ("", "y")).
  - simpl. auto.
  - left. eexists. reflexivity.
Defined.

Lemma getAuthorizedData_bad_envelope_witness :
  ProfileManager.getAuthorizedData "pub:bob" "alisa>name=bob/name" reader =
  (Rejected "SyntaxError", reader).
Proof.
  apply (getAuthorizedData_bad_envelope (J := Map) reader "pub:bob"
           "alisa>name=bob/name").
  right. eexists. split; reflexivity.
Defined.

(** The vault store is unreachable and the envelope is a good one. *)
Lemma getAuthorizedData_store_failure_witness :
  ProfileManager.getAuthorizedData "pub:bob" "alisa>name:bob/name;"
    (alisa true false []) =
  (Pending,
   ProfileManager.sent (mkStore false []) (ProfileManager.GetData "pub:bob")
     (alisa true false [])).
Proof.
  apply (getAuthorizedData_store_failure (J := Map) (alisa true false [])
           "pub:bob" "alisa>name:bob/name;" [("name", "bob/name")] "StoreError").
  - eexists. eexists. repeat split; reflexivity.
  - reflexivity.
Defined.

(** The owner registers, and the known owner logs in: each call is
    fulfilled with the signed account and publishes it. *)
Lemma successful_login_publishes_witness :
  AccountManager.registration "owner secret" "hello" (fresh []) =
    (Resolved owner,
     AccountManager.mkWorld ["pub:owner secret"] (Some "owner secret")
       (BehaviorSubject.mk owner [owner])) /\
  AccountManager.checkAccount "owner secret" "hello" (fresh ["pub:owner secret"]) =
    (Resolved owner,
     AccountManager.mkWorld ["pub:owner secret"] (Some "owner secret")
       (BehaviorSubject.mk owner [owner])).
Proof.
  split.
  - apply (proj1 (successful_login_publishes (fresh []) "owner secret" "hello")
             (mkKeyPair "prv:owner secret" "pub:owner secret")
             (Some "owner secret") (new_Account "pub:owner secret")
             ["pub:owner secret"] "sig:owner secret:hello" (Some "owner secret"));
      reflexivity.
  - apply (proj1 (successful_login_publishes (fresh ["pub:owner secret"])
                    "owner secret" "hello")
             (mkKeyPair "prv:owner secret" "pub:owner secret")
             (Some "owner secret") (new_Account "pub:owner secret")
             ["pub:owner secret"] "sig:owner secret:hello" (Some "owner secret"));
      reflexivity.
Defined.

End Runs.

(** ** More on the vault manager *)

Section ProfileManagerCoverage.
Context {S E D J : Type}.
Context {js : JsString}.
Context {store : ClientDataRepository.t S}.
Context {kdf : MessageEncrypt.t E} {envelope : MessageDecrypt.t D}.
Context {aes : CryptoUtils.t}.
Context {json : JSON.t J} {jsonUtils : JsonUtils.t J}.

Local Abbreviation World := (ProfileManager.World S E D).

Implicit Types (w : World) (data acc raw : Map) (key value : string).

Local Open Scope list_scope.

(** *** The loop of [prepareData], whatever its outcome *)

Lemma NoDup_Map_set (m : Map) key value :
  NoDup (keys m) -> NoDup (keys (Map_set m key value)).
Proof.
  induction m as [|[k v] m IH]; simpl; intros Hnd.
  - constructor; [intros []|constructor].
  - inversion Hnd as [|? ? Hk Hnd']; subst.
    destruct (String.eqb_spec k key) as [->|Hne]; simpl.
    + now constructor.
    + constructor; [|now apply IH].
      intros Hin. apply keys_Map_set in Hin as [Heq|Hin]; [congruence|contradiction].
Qed.

Lemma forEach_app {W T} (a b : Map) (body : string -> string -> T -> Sync W T)
    (acc : T) (w : W) :
  forEach (a ++ b) body acc w =
  match forEach a body acc w with
  | (Ok acc', w') => forEach b body acc' w'
  | (Throw e, w') => (Throw e, w')
  end.
Proof.
  revert acc w. induction a as [|[k v] a IH]; intros acc w; simpl.
  - reflexivity.
  - unfold bind. destruct (body v k acc w) as [[acc'|e] w']; [apply IH|reflexivity].
Qed.

(** One turn that does not throw has set the lowercased name. *)
Lemma prepare_each_inv w encrypting key value acc acc' w' :
  prepare_each encrypting value key acc w = (Ok acc', w') ->
  exists changed, acc' = Map_set acc (toLowerCase key) changed.
Proof.
  unfold prepare_each, bind, ProfileManager.generatePasswordForFiled,
    ProfileManager.encryptAes256, ProfileManager.decryptAes256, ret.
  destruct (MessageEncrypt.generatePasswordForFiled _ key) as [pass|e];
    [|discriminate].
  destruct encrypting.
  - destruct (CryptoUtils.encryptAes256 value pass _) as [c|e]; [|discriminate].
    intros H. inversion H. now exists c.
  - destruct (CryptoUtils.decryptAes256 value pass) as [c|e]; [|discriminate].
    intros H. inversion H. now exists c.
Qed.

Lemma prepare_each_decrypt_inv w key value acc acc' w' :
  prepare_each false value key acc w = (Ok acc', w') ->
  exists pass clear,
    MessageEncrypt.generatePasswordForFiled (ProfileManager.encrypt w) key = Ok pass /\
    CryptoUtils.decryptAes256 value pass = Ok clear /\
    acc' = Map_set acc (toLowerCase key) clear.
Proof.
  unfold prepare_each, bind, ProfileManager.generatePasswordForFiled,
    ProfileManager.decryptAes256, ret.
  destruct (MessageEncrypt.generatePasswordForFiled _ key) as [pass|e] eqn:Hp;
    [|discriminate].
  destruct (CryptoUtils.decryptAes256 value pass) as [c|e] eqn:Hd; [|discriminate].
  intros H. inversion H. exists pass, c. auto.
Qed.

(** A turn of the decrypting loop leaves the world as it is; a turn of
    the encrypting loop draws at most once. *)
Lemma prepare_each_decrypt_world w key value acc :
  snd (prepare_each false value key acc w) = w.
Proof.
  unfold prepare_each, bind, ProfileManager.generatePasswordForFiled,
    ProfileManager.decryptAes256, ret.
  destruct (MessageEncrypt.generatePasswordForFiled _ key) as [pass|e];
    [|reflexivity].
  now destruct (CryptoUtils.decryptAes256 value pass).
Qed.

Lemma decrypt_loop_world data :
  forall acc w, snd (forEach data (prepare_each false) acc w) = w.
Proof.
  induction data as [|[key value] data IH]; intros acc w; simpl; [reflexivity|].
  unfold bind.
  pose proof (prepare_each_decrypt_world w key value acc) as Hw.
  destruct (prepare_each false value key acc w) as [[acc'|e] w']; simpl in Hw;
    subst w'; [apply IH|reflexivity].
Qed.

Lemma prepare_each_encrypt_world w key value acc acc' w' :
  prepare_each true value key acc w = (Ok acc', w') -> w' = ProfileManager.draw w.
Proof.
  unfold prepare_each, bind, ProfileManager.generatePasswordForFiled,
    ProfileManager.encryptAes256, ret.
  destruct (MessageEncrypt.generatePasswordForFiled _ key) as [pass|e];
    [|discriminate].
  destruct (CryptoUtils.encryptAes256 value pass _) as [c|e]; [|discriminate].
  intros H. inversion H. reflexivity.
Qed.

Lemma encrypt_loop_draws data :
  forall acc w result w',
    forEach data (prepare_each true) acc w = (Ok result, w') ->
    same_but_draws w w' /\
    ProfileManager.drawn w' = ProfileManager.drawn w + length data.
Proof.
  induction data as [|[key value] data IH]; intros acc w result w'; simpl.
  - unfold ret. intros H. inversion H; subst.
    split; [apply same_but_draws_refl|lia].
  - unfold bind.
    destruct (prepare_each true value key acc w) as [[acc'|e] w1] eqn:Hstep;
      [|discriminate].
    apply prepare_each_encrypt_world in Hstep. subst w1. intros H.
    apply IH in H as [Hsame Hdrawn]. split; [exact Hsame|].
    rewrite Hdrawn. simpl. lia.
Qed.

(** The names of the result of a loop that does not throw. *)
Lemma prepare_loop_keys encrypting data :
  forall acc w result w',
    forEach data (prepare_each encrypting) acc w = (Ok result, w') ->
    NoDup (keys acc) ->
    NoDup (keys result) /\
    forall key, In key (keys result) <->
                In key (keys acc) \/ In key (List.map toLowerCase (keys data)).
Proof.
  induction data as [|[k v] data IH]; intros acc w result w'; simpl.
  - unfold ret. intros H Hnd. inversion H; subst. split; [exact Hnd|]. tauto.
  - unfold bind.
    destruct (prepare_each encrypting v k acc w) as [[acc'|e] w1] eqn:Hstep;
      [|discriminate].
    apply prepare_each_inv in Hstep as [changed ->].
    intros H Hnd. apply IH in H as [Hnd' Hkeys]; [|now apply NoDup_Map_set].
    split; [exact Hnd'|]. intros key. rewrite Hkeys, keys_Map_set.
    intuition congruence.
Qed.

(** A name that no later field lowercases to keeps its value. *)
Lemma prepare_loop_keeps encrypting data key :
  Forall (fun kv => toLowerCase (fst kv) <> key) data ->
  forall acc w result w',
    forEach data (prepare_each encrypting) acc w = (Ok result, w') ->
    Map_get result key = Map_get acc key.
Proof.
  induction 1 as [|[k v] data Hk _ IH]; intros acc w result w'; simpl.
  - unfold ret. intros H. now inversion H.
  - unfold bind.
    destruct (prepare_each encrypting v k acc w) as [[acc'|e] w1] eqn:Hstep;
      [|discriminate].
    apply prepare_each_inv in Hstep as [changed ->].
    intros H. apply IH in H. rewrite H, Map_get_set. simpl in Hk.
    destruct (String.eqb_spec (toLowerCase k) key); [contradiction|reflexivity].
Qed.

Lemma getData_inv w result w' :
  ProfileManager.getData w = (Resolved result, w') ->
  exists raw w1,
    ProfileManager.getRawData (publicKey (ProfileManager.account w)) w =
      (Resolved raw, w1) /\
    forEach raw (prepare_each false) [] w1 = (Ok result, w').
Proof.
  unfold ProfileManager.getData, then_.
  destruct (ProfileManager.getRawData _ w) as [[raw|e|] w1]; try discriminate.
  rewrite prepareData_loop. unfold new_Promise.
  destruct (forEach raw (prepare_each false) [] w1) as [[r|e] w2] eqn:Hrun;
    [|discriminate].
  intros H. inversion H; subst. now exists raw, w1.
Qed.

(** *** Reading and writing the own vault *)

(** X1.  Whatever names the store serves, the vault [getData] returns
    has each lowercased name once: its names are distinct and are the
    names of the raw vault as [toLowerCase] (any function on strings)
    gives them. *)
Theorem getData_names w result w' :
  ProfileManager.getData w = (Resolved result, w') ->
  exists raw s,
    ClientDataRepository.getData (publicKey (ProfileManager.account w))
      (ProfileManager.clientDataRepository w) = (Resolved raw, s) /\
    NoDup (keys result) /\
    forall key, In key (keys result) <-> In key (List.map toLowerCase (keys raw)).
Proof.
  intros H. apply getData_inv in H as [raw [w1 [Hraw Hrun]]].
  apply getRawData_inv in Hraw as [s [Hget _]].
  apply prepare_loop_keys in Hrun as [Hnd Hkeys]; [|constructor].
  exists raw, s. split; [exact Hget|]. split; [exact Hnd|].
  intros key. rewrite Hkeys. simpl. tauto.
Qed.

(** X2.  An [updateData] that succeeds has sent one request to the
    store, an update under the current public key, and returns the
    store's answer to it.  The vault sent has each lowercased name of
    the input once ([toLowerCase] being any function on strings), and
    one initialisation vector was drawn for every field of the input. *)
Theorem updateData_sends_one_request w data stored w' :
  ProfileManager.updateData data w = (Resolved stored, w') ->
  exists encrypted,
    ClientDataRepository.updateData (publicKey (ProfileManager.account w))
      encrypted (ProfileManager.clientDataRepository w) =
      (Resolved stored, ProfileManager.clientDataRepository w') /\
    ProfileManager.requests w' =
      ProfileManager.requests w ++
      [ProfileManager.UpdateData (publicKey (ProfileManager.account w)) encrypted] /\
    ProfileManager.drawn w' = ProfileManager.drawn w + length data /\
    NoDup (keys encrypted) /\
    forall key, In key (keys encrypted) <->
                In key (List.map toLowerCase (keys data)).
Proof.
  unfold ProfileManager.updateData, then_.
  rewrite prepareData_loop. unfold new_Promise.
  destruct (forEach data (prepare_each true) [] w) as [[encrypted|e] w1] eqn:Hrun;
    [|discriminate].
  destruct (encrypt_loop_draws _ _ _ _ _ Hrun)
    as [[Hrepo [Hacc [_ [_ [_ Hreq]]]]] Hdrawn].
  apply prepare_loop_keys in Hrun as [Hnd Hkeys]; [|constructor].
  rewrite Hrepo, Hacc.
  destruct (ClientDataRepository.updateData _ encrypted _) as [p s] eqn:Hup.
  intros H. inversion H; subst. exists encrypted. simpl.
  rewrite Hreq. repeat split; auto.
  - intros Hin. apply Hkeys in Hin as [[]|Hin]. exact Hin.
  - intros Hin. apply Hkeys. now right.
Qed.

(** X3.  When two fields of the raw vault have names that agree after
    lowercasing, [getData] returns the later one: a field that no later
    field agrees with is in the result, decrypted, under its lowercased
    name.  Names agree when [toLowerCase] (any function on strings)
    gives them the same string. *)
Theorem getData_last_wins w before key value after s result w' :
  ClientDataRepository.getData (publicKey (ProfileManager.account w))
    (ProfileManager.clientDataRepository w) =
    (Resolved (before ++ (key, value) :: after), s) ->
  Forall (fun kv => toLowerCase (fst kv) <> toLowerCase key) after ->
  ProfileManager.getData w = (Resolved result, w') ->
  exists pass clear,
    MessageEncrypt.generatePasswordForFiled (ProfileManager.encrypt w) key = Ok pass /\
    CryptoUtils.decryptAes256 value pass = Ok clear /\
    Map_get result (toLowerCase key) = Some clear.
Proof.
  intros Hget Hafter H. apply getData_inv in H as [raw [w1 [Hraw Hrun]]].
  pose proof (getRawData_encrypt _ _ _ _ Hraw) as He.
  apply getRawData_inv in Hraw as [s' [Hget' _]].
  rewrite Hget in Hget'. inversion Hget'; subst raw s'. clear Hget'.
  rewrite forEach_app in Hrun.
  pose proof (decrypt_loop_world before [] w1) as Hw.
  destruct (forEach before (prepare_each false) [] w1) as [[acc1|e] w2];
    [|discriminate].
  simpl in Hw. subst w2. simpl in Hrun. unfold bind in Hrun.
  destruct (prepare_each false value key acc1 w1) as [[acc2|e] w3] eqn:Hstep;
    [|discriminate].
  apply prepare_each_decrypt_inv in Hstep as [pass [clear [Hp [Hd ->]]]].
  exists pass, clear. rewrite <- He. split; [exact Hp|]. split; [exact Hd|].
  rewrite (prepare_loop_keeps false after (toLowerCase key) Hafter _ _ _ _ Hrun).
  rewrite Map_get_set. now rewrite String.eqb_refl.
Qed.

(** X4.  After the identity [a] was delivered to [onChangeAccount],
    [getData] sends one request, a fetch under the public key of [a];
    whatever the outcome, it sends nothing else, draws no
    initialisation vector, writes nothing on the console and keeps the
    identity. *)
Theorem getData_only_fetches a w :
  let w' := snd (ProfileManager.getData (ProfileManager.onChangeAccount a w)) in
  ProfileManager.requests w' =
    ProfileManager.requests w ++ [ProfileManager.GetData (publicKey a)] /\
  ProfileManager.drawn w' = ProfileManager.drawn w /\
  ProfileManager.console w' = ProfileManager.console w /\
  ProfileManager.account w' = a.
Proof.
  unfold ProfileManager.getData, then_, ProfileManager.getRawData. simpl.
  destruct (ClientDataRepository.getData (publicKey a) _) as [[raw|e|] s];
    simpl; auto.
  rewrite prepareData_loop. unfold new_Promise.
  match goal with
  | |- context [forEach raw (prepare_each false) [] ?w1] =>
      pose proof (decrypt_loop_world raw [] w1) as Hw;
      destruct (forEach raw (prepare_each false) [] w1) as [[r|e] w2]
  end; simpl in Hw; subst w2; simpl; auto.
Qed.

Lemma same_but_draws_trans w w1 w2 :
  same_but_draws w w1 -> same_but_draws w1 w2 -> same_but_draws w w2.
Proof.
  unfold same_but_draws. intros [? [? [? [? [? ?]]]]] [? [? [? [? [? ?]]]]].
  repeat split; congruence.
Qed.

Lemma prepare_each_same w encrypting key value acc :
  same_but_draws w (snd (prepare_each encrypting value key acc w)).
Proof.
  unfold prepare_each, bind, ProfileManager.generatePasswordForFiled,
    ProfileManager.encryptAes256, ProfileManager.decryptAes256, ret.
  destruct (MessageEncrypt.generatePasswordForFiled _ key) as [pass|e];
    [|apply same_but_draws_refl].
  destruct encrypting.
  - destruct (CryptoUtils.encryptAes256 value pass _); repeat split.
  - destruct (CryptoUtils.decryptAes256 value pass); repeat split.
Qed.

Lemma prepare_loop_same encrypting data :
  forall acc w, same_but_draws w (snd (forEach data (prepare_each encrypting) acc w)).
Proof.
  induction data as [|[key value] data IH]; intros acc w; simpl.
  - apply same_but_draws_refl.
  - unfold bind.
    pose proof (prepare_each_same w encrypting key value acc) as Hstep.
    destruct (prepare_each encrypting value key acc w) as [[acc'|e] w1];
      simpl in Hstep; [|exact Hstep].
    apply same_but_draws_trans with w1; [exact Hstep|apply IH].
Qed.

Lemma updateData_keeps_identity w data :
  ProfileManager.account (snd (ProfileManager.updateData data w)) =
    ProfileManager.account w /\
  ProfileManager.encrypt (snd (ProfileManager.updateData data w)) =
    ProfileManager.encrypt w.
Proof.
  unfold ProfileManager.updateData, then_.
  rewrite prepareData_loop. unfold new_Promise.
  pose proof (prepare_loop_same true data [] w) as [_ [Hacc [Henc _]]].
  destruct (forEach data (prepare_each true) [] w) as [[encrypted|e] w1];
    simpl in *; [|now split].
  destruct (ClientDataRepository.updateData _ encrypted _) as [p s]. simpl.
  now split.
Qed.

(** X9.  A write replaces the vault.  Whatever [earlier] vault was
    written first, successfully or not, once [data] is written the vault
    reads back as [data] with its names lowercased, provided the cipher
    round-trips, the store echoes, and the names of [data] derive their
    passwords whatever their case, are kept by lowercasing once
    lowercased, and stay distinct when lowercased.  [toLowerCase] is any
    function on strings. *)
Theorem updateData_replaces w earlier data :
  round_trip ->
  echoes (ProfileManager.clientDataRepository
            (snd (ProfileManager.updateData earlier w)))
         (publicKey (ProfileManager.account w)) ->
  Forall (folds_case (ProfileManager.encrypt w)) (keys data) ->
  Forall settled (keys data) ->
  NoDup (List.map toLowerCase (keys data)) ->
  exists stored w2 w3,
    ProfileManager.updateData data (snd (ProfileManager.updateData earlier w)) =
      (Resolved stored, w2) /\
    ProfileManager.getData w2 = (Resolved (lowercased data), w3).
Proof.
  intros Hrt Hecho Hfold Hset Hnd.
  destruct (updateData_keeps_identity w earlier) as [Hacc Henc].
  rewrite <- Hacc in Hecho. rewrite <- Henc in Hfold.
  destruct (write_then_read _ data Hrt Hecho Hfold Hset Hnd)
    as [stored [w2 [w3 [Hup [_ Hread]]]]].
  now exists stored, w2, w3.
Qed.

(** *** Reading a disclosed vault *)

(** X6.  Whatever its outcome, [getAuthorizedData] sends the store
    nothing but at most one fetch, under the public key it was given;
    it draws no initialisation vector and keeps the identity and the key
    pair objects. *)
Theorem getAuthorizedData_read_only w recipientPk encryptedData :
  let w' := snd (ProfileManager.getAuthorizedData recipientPk encryptedData w) in
  (ProfileManager.requests w' = ProfileManager.requests w \/
   ProfileManager.requests w' =
     ProfileManager.requests w ++ [ProfileManager.GetData recipientPk]) /\
  ProfileManager.drawn w' = ProfileManager.drawn w /\
  ProfileManager.account w' = ProfileManager.account w /\
  ProfileManager.encrypt w' = ProfileManager.encrypt w /\
  ProfileManager.decrypt w' = ProfileManager.decrypt w.
Proof.
  rewrite getAuthorizedData_loop.
  unfold new_Promise_then, bind, ProfileManager.decryptMessage,
    ProfileManager.JSON_parse, ProfileManager.jsonToMap.
  destruct (MessageDecrypt.decryptMessage _ recipientPk encryptedData)
    as [strDecrypt|e]; simpl; auto.
  destruct (JSON.parse strDecrypt) as [jsonDecrypt|e]; simpl; auto.
  destruct (JsonUtils.jsonToMap jsonDecrypt) as [passwords|e]; simpl; auto.
  unfold ProfileManager.getRawData.
  destruct (ClientDataRepository.getData recipientPk _) as [[raw|e|] s];
    simpl; auto.
  rewrite disclose_loop. simpl. auto.
Qed.

(** X7.  [getAuthorizedData] does not look at the current identity:
    after another identity was delivered to [onChangeAccount] the call
    has the same outcome and the same effects. *)
Theorem getAuthorizedData_ignores_account a w recipientPk encryptedData :
  ProfileManager.getAuthorizedData recipientPk encryptedData
    (ProfileManager.onChangeAccount a w) =
  (fst (ProfileManager.getAuthorizedData recipientPk encryptedData w),
   ProfileManager.onChangeAccount a
     (snd (ProfileManager.getAuthorizedData recipientPk encryptedData w))).
Proof.
  rewrite getAuthorizedData_loop.
  unfold new_Promise_then, bind, ProfileManager.decryptMessage,
    ProfileManager.JSON_parse, ProfileManager.jsonToMap. simpl.
  destruct (MessageDecrypt.decryptMessage _ recipientPk encryptedData)
    as [strDecrypt|e]; [|reflexivity].
  destruct (JSON.parse strDecrypt) as [jsonDecrypt|e]; [|reflexivity].
  destruct (JsonUtils.jsonToMap jsonDecrypt) as [passwords|e]; [|reflexivity].
  unfold ProfileManager.getRawData. simpl.
  destruct (ClientDataRepository.getData recipientPk _) as [[raw|e|] s];
    try reflexivity.
  now rewrite !disclose_loop.
Qed.

Lemma disclose_all_app raw passwords :
  NoDup (keys passwords) ->
  forall acc,
    (forall key, In key (keys passwords) -> ~ In key (keys acc)) ->
    disclose_all raw passwords acc = acc ++ disclosed_fields raw passwords.
Proof.
  induction passwords as [|[k pass] passwords IH]; intros Hnd acc Hap; simpl.
  - now rewrite app_nil_r.
  - simpl in Hnd. inversion Hnd as [|? ? Hk Hnd']; subst.
    unfold disclose_all in *. simpl.
    destruct (Map_get raw k) as [cipher|]; [|apply IH; auto].
    + destruct (CryptoUtils.decryptAes256 cipher pass) as [clear|e].
      * rewrite Map_set_new by (apply Hap; now left).
        rewrite IH; [now rewrite <- app_assoc|exact Hnd'|].
        intros k' Hk'. rewrite keys_app, in_app_iff. simpl.
        intros [Hin|[<-|[]]]; [|contradiction].
        apply (Hap k'); [now right|exact Hin].
      * apply IH; auto. intros k' Hk'. apply Hap. now right.
    + intros k' Hk'. apply Hap. now right.
Qed.

(** X8.  When the envelope opens to a password map and the raw vault is
    fetched, the result of [getAuthorizedData] lists the fields that
    decrypt in the order of the password map, and the console has one
    line for each field that does not. *)
Theorem getAuthorizedData_in_order w recipientPk encryptedData passwords raw w1 :
  discloses (J := J) (ProfileManager.decrypt w) recipientPk encryptedData passwords ->
  NoDup (keys passwords) ->
  ProfileManager.getRawData recipientPk w = (Resolved raw, w1) ->
  ProfileManager.getAuthorizedData recipientPk encryptedData w =
  (Resolved (disclosed_fields raw passwords), logged (complaints raw passwords) w1).
Proof.
  intros Hopen Hnd Hraw.
  rewrite (getAuthorizedData_runs w recipientPk encryptedData passwords raw w1
             Hopen Hraw).
  rewrite (disclose_all_app raw passwords Hnd []); [reflexivity|].
  intros ? _ [].
Qed.

End ProfileManagerCoverage.

(** ** More on the identity manager *)

Section AccountManagerCoverage.
Context {R K : Type}.
Context {authority : AccountRepository.t R}.
Context {helper : KeyPairHelper.t K} {signer : MessageSigner.t K}.

Local Abbreviation World := (AccountManager.World R K).

Implicit Types (w : World) (a acc : Account) (msg mnemonicPhrase : string).

Local Open Scope list_scope.

Lemma login_next w mnemonicPhrase msg a w' :
  AccountManager.registration mnemonicPhrase msg w = (Resolved a, w') \/
  AccountManager.checkAccount mnemonicPhrase msg w = (Resolved a, w') ->
  AccountManager.authAccountBehavior w' =
  BehaviorSubject.next a (AccountManager.authAccountBehavior w).
Proof.
  intros [H|H].
  - unfold AccountManager.registration in H.
    apply then_inv in H as [acc [w2 [H Hget]]].
    apply then_inv in H as [acc0 [w1 [Hgen Hask]]].
    apply generateAccount_inv in Hgen as [_ [_ [_ [_ Hs1]]]].
    apply ask_inv in Hask as [_ [_ Hs2]].
    apply onGetAccount_inv in Hget as [_ [_ [_ [_ Hs3]]]].
    now rewrite Hs3, Hs2, Hs1.
  - unfold AccountManager.checkAccount, AccountManager.getAccount in H.
    apply then_inv in H as [acc0 [w1 [Hgen H]]].
    apply then_inv in H as [acc [w2 [Hask Hget]]].
    apply generateAccount_inv in Hgen as [_ [_ [_ [_ Hs1]]]].
    apply ask_inv in Hask as [_ [_ Hs2]].
    apply onGetAccount_inv in Hget as [_ [_ [_ [_ Hs3]]]].
    now rewrite Hs3, Hs2, Hs1.
Qed.

(** Unfolds the three methods down to the calls of the collaborators. *)
Ltac unfold_manager :=
  unfold AccountManager.registration, AccountManager.checkAccount,
    AccountManager.unsubscribe, AccountManager.getAccount,
    AccountManager.onGetAccount, AccountManager.generateAccount,
    AccountManager.ask, AccountManager.createKeyPair,
    AccountManager.signMessage, AccountManager.authAccountBehavior_next,
    then_, new_Promise, bind, ret.

(** X10.  A [registration] or a [checkAccount] that does not succeed
    leaves the subject as it was: no identity is published and nothing
    is delivered to the observers. *)
Theorem failed_login_keeps_identity w mnemonicPhrase msg p w' :
  AccountManager.registration mnemonicPhrase msg w = (p, w') \/
  AccountManager.checkAccount mnemonicPhrase msg w = (p, w') ->
  (forall a, p <> Resolved a) ->
  AccountManager.authAccountBehavior w' = AccountManager.authAccountBehavior w.
Proof.
  intros H Hfail. revert H. unfold_manager.
  destruct (KeyPairHelper.createKeyPair mnemonicPhrase _) as [[keyPair|e|] k];
    simpl.
  - destruct (AccountRepository.registration _ _) as [[acc|e|] r];
      destruct (AccountRepository.checkAccount _ _) as [[acc'|e'|] r']; simpl;
      destruct (MessageSigner.signMessage msg k) as [[sg|e''|] k']; simpl;
      intros [H|H]; inversion H; subst; try reflexivity;
      exfalso; eapply Hfail; reflexivity.
  - intros [H|H]; inversion H; reflexivity.
  - intros [H|H]; inversion H; reflexivity.
Qed.

(** X11.  When the key pair cannot be made from the phrase, each of
    [registration], [checkAccount] and [unsubscribe] fails with the
    error of the key pair helper; the account authority is not asked and
    the subject is as it was. *)
Theorem derivation_failure_stops w mnemonicPhrase msg err k :
  KeyPairHelper.createKeyPair mnemonicPhrase (AccountManager.keyPairCreator w) =
    (Rejected err, k) ->
  let w' := AccountManager.mkWorld (AccountManager.accountRepository w) k
              (AccountManager.authAccountBehavior w) in
  AccountManager.registration mnemonicPhrase msg w = (Rejected err, w') /\
  AccountManager.checkAccount mnemonicPhrase msg w = (Rejected err, w') /\
  AccountManager.unsubscribe mnemonicPhrase w = (Rejected err, w').
Proof.
  intros Hkp. unfold_manager. rewrite Hkp. auto.
Qed.

(** X12.  When the authority refuses (or does not know) the account,
    each method fails with the error of the authority; the signer is not
    called and the subject is as it was. *)
Theorem authority_failure_stops w mnemonicPhrase msg keyPair k err r :
  KeyPairHelper.createKeyPair mnemonicPhrase (AccountManager.keyPairCreator w) =
    (Resolved keyPair, k) ->
  let asked := new_Account (kp_publicKey keyPair) in
  let w' := AccountManager.mkWorld r k (AccountManager.authAccountBehavior w) in
  (AccountRepository.registration asked (AccountManager.accountRepository w) =
     (Rejected err, r) ->
   AccountManager.registration mnemonicPhrase msg w = (Rejected err, w')) /\
  (AccountRepository.checkAccount asked (AccountManager.accountRepository w) =
     (Rejected err, r) ->
   AccountManager.checkAccount mnemonicPhrase msg w = (Rejected err, w')) /\
  (AccountRepository.unsubscribe asked (AccountManager.accountRepository w) =
     (Rejected err, r) ->
   AccountManager.unsubscribe mnemonicPhrase w = (Rejected err, w')).
Proof.
  intros Hkp. unfold_manager. rewrite Hkp. simpl.
  repeat split; intros Hask; now rewrite Hask.
Qed.

(** X13.  [registration] is not undone when signing fails: once the
    authority has registered the account, a failure of [signMessage]
    fails the call with the signer's error, the authority stays in the
    state the registration left, and no identity is published. *)
Theorem registration_signing_failure w mnemonicPhrase msg keyPair k acc r err k' :
  KeyPairHelper.createKeyPair mnemonicPhrase (AccountManager.keyPairCreator w) =
    (Resolved keyPair, k) ->
  AccountRepository.registration (new_Account (kp_publicKey keyPair))
    (AccountManager.accountRepository w) = (Resolved acc, r) ->
  MessageSigner.signMessage msg k = (Rejected err, k') ->
  AccountManager.registration mnemonicPhrase msg w =
  (Rejected err,
   AccountManager.mkWorld r k' (AccountManager.authAccountBehavior w)).
Proof.
  intros Hkp Hreg Hsig. unfold_manager. rewrite Hkp. simpl.
  rewrite Hreg. simpl. now rewrite Hsig.
Qed.

(** X14.  Two logins in a row: the subject holds the account of the
    second, and the observers were delivered the account of the first
    and then the account of the second. *)
Theorem second_login_replaces w phrase1 msg1 a w1 phrase2 msg2 b w2 :
  AccountManager.registration phrase1 msg1 w = (Resolved a, w1) \/
  AccountManager.checkAccount phrase1 msg1 w = (Resolved a, w1) ->
  AccountManager.registration phrase2 msg2 w1 = (Resolved b, w2) \/
  AccountManager.checkAccount phrase2 msg2 w1 = (Resolved b, w2) ->
  BehaviorSubject.getValue (AccountManager.authAccountBehavior w2) = b /\
  BehaviorSubject.emitted (AccountManager.authAccountBehavior w2) =
    BehaviorSubject.emitted (AccountManager.authAccountBehavior w) ++ [a; b].
Proof.
  intros H1 H2. apply login_next in H1. apply login_next in H2.
  rewrite H2, H1. simpl. split; [reflexivity|]. now rewrite <- app_assoc.
Qed.

(** X15.  An [unsubscribe] that succeeds returns the answer of the
    authority as it is, with no message or signature set on it; the
    authority was asked about the public key of the pair made from the
    phrase, and the key pair helper is left in the state making that
    pair put it in. *)
Theorem unsubscribe_returns_answer w mnemonicPhrase a w' :
  AccountManager.unsubscribe mnemonicPhrase w = (Resolved a, w') ->
  exists keyPair,
    KeyPairHelper.createKeyPair mnemonicPhrase (AccountManager.keyPairCreator w) =
      (Resolved keyPair, AccountManager.keyPairCreator w') /\
    AccountRepository.unsubscribe (new_Account (kp_publicKey keyPair))
      (AccountManager.accountRepository w) =
      (Resolved a, AccountManager.accountRepository w').
Proof.
  unfold AccountManager.unsubscribe. intros H.
  apply then_inv in H as [acc [w1 [Hgen Hask]]].
  apply generateAccount_inv in Hgen as [keyPair [Hkp [-> [Hr1 _]]]].
  apply ask_inv in Hask as [Hask [Hk _]].
  exists keyPair. rewrite Hk, <- Hr1. now split.
Qed.

End AccountManagerCoverage.

(** ** More runs on the test doubles *)

Section CoverageRuns.
Import Mock.

Local Open Scope list_scope.

Lemma getData_names_witness :
  exists raw s,
    ClientDataRepository.getData "pub:alisa"
      (ProfileManager.clientDataRepository clashing) = (Resolved raw, s) /\
    NoDup (keys [("name", "new")]) /\
    forall key, In key (keys [("name", "new")]) <->
                In key (List.map toLowerCase (keys raw)).
Proof.
  apply (getData_names (js := ascii_names) clashing [("name", "new")]
           (ProfileManager.sent (ProfileManager.clientDataRepository clashing)
              (ProfileManager.GetData "pub:alisa") clashing)).
  reflexivity.
Defined.

Lemma updateData_sends_one_request_witness :
  exists encrypted,
    ClientDataRepository.updateData "pub:alisa" encrypted (mkStore true []) =
      (Resolved [("name", "1alisa/name|y")],
       mkStore true [("pub:alisa", [("name", "1alisa/name|y")])]) /\
    [ProfileManager.UpdateData "pub:alisa" [("name", "1alisa/name|y")]] =
      [] ++ [ProfileManager.UpdateData "pub:alisa" encrypted] /\
    2 = 0 + 2 /\
    NoDup (keys encrypted) /\
    forall key, In key (keys encrypted) <-> In key ["name"; "name"].
Proof.
  apply (updateData_sends_one_request (js := ascii_names) (alisa true true [])
           [("Name", "x"); ("name", "y")] [("name", "1alisa/name|y")]
           (ProfileManager.mkWorld
              (mkStore true [("pub:alisa", [("name", "1alisa/name|y")])])
              (new_Account "pub:alisa") (mkKeys "alisa" true) (mkKeys "alisa" true)
              2 []
              [ProfileManager.UpdateData "pub:alisa" [("name", "1alisa/name|y")]])).
  reflexivity.
Defined.

Lemma getData_last_wins_witness :
  exists pass clear,
    MessageEncrypt.generatePasswordForFiled (mkKeys "alisa" true) "Name" = Ok pass /\
    CryptoUtils.decryptAes256 "0alisa/name|new" pass = Ok clear /\
    Map_get [("name", "new")] (toLowerCase "Name") = Some clear.
Proof.
  apply (getData_last_wins (js := ascii_names) clashing [("name", "0alisa/name|old")] "Name"
           "0alisa/name|new" [] (ProfileManager.clientDataRepository clashing)
           [("name", "new")]
           (ProfileManager.sent (ProfileManager.clientDataRepository clashing)
              (ProfileManager.GetData "pub:alisa") clashing)).
  - reflexivity.
  - constructor.
  - reflexivity.
Defined.

Lemma updateData_replaces_witness :
  exists stored w2 w3,
    ProfileManager.updateData [("Email", "o@x.com")]
      (snd (ProfileManager.updateData [("name", "x"); ("phone", "555")]
              (alisa true true []))) = (Resolved stored, w2) /\
    ProfileManager.getData w2 = (Resolved [("email", "o@x.com")], w3).
Proof.
  apply (updateData_replaces (js := ascii_names) (alisa true true [])
           [("name", "x"); ("phone", "555")] [("Email", "o@x.com")]).
  - exact mock_round_trip.
  - apply mock_echoes.
  - repeat constructor. eexists. split; reflexivity.
  - repeat constructor.
  - repeat constructor. intros [].
Defined.

Lemma getAuthorizedData_in_order_witness :
  ProfileManager.getAuthorizedData "pub:bob" "alisa>phone:bob/phone;name:bob/name;"
    reader =
  (Resolved [("phone", "555"); ("name", "Bob")],
   logged []
     (ProfileManager.sent (ProfileManager.clientDataRepository reader)
        (ProfileManager.GetData "pub:bob") reader)).
Proof.
  rewrite (getAuthorizedData_in_order (J := Map) reader "pub:bob"
             "alisa>phone:bob/phone;name:bob/name;"
             [("phone", "bob/phone"); ("name", "bob/name")] bobs_vault
             (ProfileManager.sent (ProfileManager.clientDataRepository reader)
                (ProfileManager.GetData "pub:bob") reader)).
  - reflexivity.
  - eexists. eexists. repeat split; reflexivity.
  - repeat constructor; simpl; intuition discriminate.
  - reflexivity.
Defined.

Lemma failed_login_keeps_identity_witness :
  AccountManager.authAccountBehavior
    (AccountManager.mkWorld (R := list string) [] (Some "owner secret")
       (BehaviorSubject.mk (new_Account "") [])) =
  AccountManager.authAccountBehavior (fresh []).
Proof.
  apply (failed_login_keeps_identity (fresh []) "owner secret" "hello"
           (Rejected "NotFoundError")).
  - right. reflexivity.
  - discriminate.
Defined.

Lemma derivation_failure_stops_witness :
  AccountManager.registration "" "hello" (fresh []) =
    (Rejected "DerivationError", fresh []) /\
  AccountManager.checkAccount "" "hello" (fresh []) =
    (Rejected "DerivationError", fresh []) /\
  AccountManager.unsubscribe "" (fresh []) =
    (Rejected "DerivationError", fresh []).
Proof.
  apply (derivation_failure_stops (fresh []) "" "hello" "DerivationError" None).
  reflexivity.
Defined.

Lemma authority_failure_stops_witness :
  AccountManager.unsubscribe "owner secret" (fresh []) =
  (Rejected "NotFoundError",
   AccountManager.mkWorld (R := list string) [] (Some "owner secret")
     (BehaviorSubject.mk (new_Account "") [])).
Proof.
  apply (authority_failure_stops (fresh []) "owner secret" ""
           (mkKeyPair "prv:owner secret" "pub:owner secret")
           (Some "owner secret") "NotFoundError" []).
  - reflexivity.
  - reflexivity.
Defined.

Lemma registration_signing_failure_witness :
  AccountManager.registration "owner secret" "hello" (unsigned []) =
  (Rejected "no key pair",
   AccountManager.mkWorld ["pub:owner secret"]
     (mkSplitKeys (Some "owner secret") None)
     (BehaviorSubject.mk (new_Account "") [])).
Proof.
  apply (registration_signing_failure (unsigned []) "owner secret" "hello"
           (mkKeyPair "prv:owner secret" "pub:owner secret")
           (mkSplitKeys (Some "owner secret") None)
           (new_Account "pub:owner secret") ["pub:owner secret"]
           "no key pair" (mkSplitKeys (Some "owner secret") None));
    reflexivity.
Defined.

Lemma second_login_replaces_witness :
  exists a b w2,
    AccountManager.checkAccount "owner secret" "again"
      (snd (AccountManager.registration "owner secret" "hello" (fresh []))) =
      (Resolved b, w2) /\
    BehaviorSubject.getValue (AccountManager.authAccountBehavior w2) = b /\
    BehaviorSubject.emitted (AccountManager.authAccountBehavior w2) =
      BehaviorSubject.emitted (AccountManager.authAccountBehavior (fresh [])) ++
      [a; b].
Proof.
  eexists. eexists. eexists. split; [reflexivity|].
  eapply (second_login_replaces (fresh []) "owner secret" "hello" _ _
            "owner secret" "again").
  - left. reflexivity.
  - right. reflexivity.
Defined.

Lemma unsubscribe_returns_answer_witness :
  exists keyPair,
    KeyPairHelper.createKeyPair "owner secret"
      (AccountManager.keyPairCreator (fresh ["pub:owner secret"])) =
      (Resolved keyPair, Some "owner secret") /\
    AccountRepository.unsubscribe (new_Account (kp_publicKey keyPair))
      ["pub:owner secret"] = (Resolved (new_Account "pub:owner secret"), []).
Proof.
  apply (unsubscribe_returns_answer (fresh ["pub:owner secret"]) "owner secret"
           (new_Account "pub:owner secret")
           (AccountManager.mkWorld (R := list string) [] (Some "owner secret")
              (BehaviorSubject.mk (new_Account "") []))).
  reflexivity.
Defined.

End CoverageRuns.
